(** * aeneas.analyzecontainer: container analysis, shallowly embedded

    The development follows src/aeneas/analyzecontainer.py: the Python
    built-ins the module relies on come first (string slicing, [split],
    [replace], [sorted], the [re] matcher, [dict]), then the collaborators
    that live in other modules of the package, then the methods of
    [AnalyzeContainer] under their own names, then the theorems. *)

From Stdlib Require Import String Ascii List Permutation Sorted Bool Arith Lia.
From stdpp Require Import base option list gmap strings sorting.
Import ListNotations.

Local Open Scope string_scope.
Local Open Scope list_scope.

(** ** Python strings *)

Module Py.

(** [s.startswith(t)] *)
Fixpoint startswith (s t : string) : bool :=
  match t, s with
  | EmptyString, _ => true
  | String b t', String a s' => if Ascii.eqb a b then startswith s' t' else false
  | String _ _, EmptyString => false
  end.

(** [s[n:]]; past the end the slice is empty, as in Python. *)
Fixpoint slice_from (n : nat) (s : string) : string :=
  match n, s with
  | O, _ => s
  | S n', String _ s' => slice_from n' s'
  | S _, EmptyString => EmptyString
  end.

(** [len(s)] *)
Definition len (s : string) : nat := String.length s.

(** [s.split(sep)] for a one-character separator: never an empty list. *)
Fixpoint split (sep : ascii) (s : string) : list string :=
  match s with
  | EmptyString => [EmptyString]
  | String c s' =>
      if Ascii.eqb c sep then EmptyString :: split sep s'
      else match split sep s' with
           | h :: t => String c h :: t
           | [] => [String c EmptyString]
           end
  end.

(** [sep.join(l)] *)
Fixpoint join (sep : string) (l : list string) : string :=
  match l with
  | [] => EmptyString
  | [x] => x
  | x :: l' => x +:+ sep +:+ join sep l'
  end.

(** [s.replace(old, new)] scans left to right and replaces the leftmost
    occurrences that do not overlap.  [skip] counts the characters of an
    occurrence already replaced that are still to be passed over. *)
Fixpoint replace_go (old new : string) (skip : nat) (s : string) : string :=
  match s with
  | EmptyString => EmptyString
  | String c s' =>
      match skip with
      | S k => replace_go old new k s'
      | O =>
          if startswith s old
          then new +:+ replace_go old new (Nat.pred (len old)) s'
          else String c (replace_go old new O s')
      end
  end.

(** With an empty [old], Python puts [new] before every character and at
    the end. *)
Fixpoint intersperse (new s : string) : string :=
  match s with
  | EmptyString => new
  | String c s' => new +:+ String c (intersperse new s')
  end.

Definition replace (s old new : string) : string :=
  match old with
  | EmptyString => intersperse new s
  | String _ _ => replace_go old new O s
  end.

(** [old in s]: some position of [s] starts an occurrence of [old]. *)
Fixpoint contains (s old : string) : bool :=
  startswith s old ||
  match s with
  | EmptyString => false
  | String _ s' => contains s' old
  end.

(** [sorted(l)] on strings: code-point order.  Python's sort is stable, which
    equal strings cannot show, so any sorting function gives its result. *)
Definition sorted (l : list string) : list string := merge_sort String.le l.

(** [c in s] for a character. *)
Fixpoint has_char (c : ascii) (s : string) : bool :=
  match s with
  | EmptyString => false
  | String a s' => Ascii.eqb a c || has_char c s'
  end.

End Py.

(** ** The [re] module: compiled patterns and their matcher

    A compiled pattern is a regular expression; [re.match] and [re.search]
    only report whether there is a match here, which Brzozowski derivatives
    decide.  Parsing the pattern syntax ([re.compile]) is a parameter of the
    analysis below. *)

Module Re.

Inductive regex : Type :=
| Never                          (* matches nothing *)
| Eps                            (* the empty string *)
| Chr (c : ascii)                (* a literal character *)
| AnyChar                        (* [.]: any character but a newline *)
| Range (lo hi : ascii)          (* [[lo-hi]] *)
| Cat (r1 r2 : regex)
| Alt (r1 r2 : regex)
| Star (r : regex).

Definition Plus (r : regex) : regex := Cat r (Star r).

Fixpoint Lit (s : string) : regex :=
  match s with
  | EmptyString => Eps
  | String c s' => Cat (Chr c) (Lit s')
  end.

Definition in_range (lo hi c : ascii) : bool :=
  (nat_of_ascii lo <=? nat_of_ascii c)%nat && (nat_of_ascii c <=? nat_of_ascii hi)%nat.

Fixpoint nullable (r : regex) : bool :=
  match r with
  | Never | Chr _ | AnyChar | Range _ _ => false
  | Eps | Star _ => true
  | Cat r1 r2 => nullable r1 && nullable r2
  | Alt r1 r2 => nullable r1 || nullable r2
  end.

Fixpoint deriv (c : ascii) (r : regex) : regex :=
  match r with
  | Never | Eps => Never
  | Chr a => if Ascii.eqb a c then Eps else Never
  | AnyChar => if Ascii.eqb c "010" then Never else Eps
  | Range lo hi => if in_range lo hi c then Eps else Never
  | Cat r1 r2 =>
      if nullable r1 then Alt (Cat (deriv c r1) r2) (deriv c r2)
      else Cat (deriv c r1) r2
  | Alt r1 r2 => Alt (deriv c r1) (deriv c r2)
  | Star r1 => Cat (deriv c r1) (Star r1)
  end.

(** The whole of [s] is in the language of [r]. *)
Fixpoint fullmatch (r : regex) (s : string) : bool :=
  match s with
  | EmptyString => nullable r
  | String c s' => fullmatch (deriv c r) s'
  end.

(** [re.match(r, s) != None]: some prefix of [s] is in the language. *)
Fixpoint re_match (r : regex) (s : string) : bool :=
  nullable r ||
  match s with
  | EmptyString => false
  | String c s' => re_match (deriv c r) s'
  end.

(** [re.search(r, s) != None]: a match starting at some position of [s]. *)
Fixpoint re_search (r : regex) (s : string) : bool :=
  re_match r s ||
  match s with
  | EmptyString => false
  | String _ s' => re_search r s'
  end.

End Re.

(** ** [dict]: insertion-ordered, a later assignment to a key replaces the
    value and keeps the key's place *)

Module PyDict.
Section dict.
Context {V : Type}.

Definition dict : Type := list (string * V).

Definition empty : dict := [].

(** [d[k] = v] *)
Fixpoint setitem (d : dict) (k : string) (v : V) : dict :=
  match d with
  | [] => [(k, v)]
  | (k', v') :: d' =>
      if String.eqb k' k then (k', v) :: d' else (k', v') :: setitem d' k v
  end.

(** [d.get(k)] *)
Fixpoint get (d : dict) (k : string) : option V :=
  match d with
  | [] => None
  | (k', v') :: d' => if String.eqb k' k then Some v' else get d' k
  end.

(** [k in d] *)
Definition contains (d : dict) (k : string) : bool :=
  match get d k with Some _ => true | None => false end.

(** [d.keys()] *)
Definition keys (d : dict) : list string := map fst d.
End dict.
Arguments dict V : clear implicits.
End PyDict.

(** ** [os.path] on POSIX *)

Module posixpath.

Definition sep : ascii := "/"%char.

(** [p[:p.rfind('/')+1]] *)
Fixpoint head (p : string) : string :=
  match p with
  | EmptyString => EmptyString
  | String c p' =>
      if Py.has_char sep p' then String c (head p')
      else if Ascii.eqb c sep then String c EmptyString else EmptyString
  end.

(** [os.path.basename(p)], that is [p[p.rfind('/')+1:]] *)
Fixpoint basename (p : string) : string :=
  match p with
  | EmptyString => EmptyString
  | String c p' =>
      if Py.has_char sep p' then basename p'
      else if Ascii.eqb c sep then p' else p
  end.

Fixpoint all_chars (ch : ascii) (s : string) : bool :=
  match s with
  | EmptyString => true
  | String c s' => Ascii.eqb c ch && all_chars ch s'
  end.

(** [s.rstrip(ch)] *)
Fixpoint rstrip (ch : ascii) (s : string) : string :=
  match s with
  | EmptyString => EmptyString
  | String c s' =>
      match rstrip ch s' with
      | EmptyString => if Ascii.eqb c ch then EmptyString else String c EmptyString
      | r => String c r
      end
  end.

(** [os.path.dirname(p)] *)
Definition dirname (p : string) : string :=
  let h := head p in
  if all_chars sep h then h else rstrip sep h.

(** [s[:s.rfind(ch)]] when [ch] occurs in [s] *)
Fixpoint before_last (ch : ascii) (s : string) : string :=
  match s with
  | EmptyString => EmptyString
  | String c s' =>
      if Py.has_char ch s' then String c (before_last ch s') else EmptyString
  end.

(** [os.path.splitext(p)[0]]: the last dot of the last component starts
    the extension, unless only dots come before it. *)
Definition splitext_root (p : string) : string :=
  let b := basename p in
  let stem := before_last "."%char b in
  if Py.has_char "."%char b && negb (all_chars "."%char stem)
  then head p +:+ stem else p.

(** [os.path.join(a, b)] *)
Definition join (a b : string) : string :=
  if Py.startswith b "/" then b
  else if String.eqb a "" || Py.startswith (String.rev a) "/" then a +:+ b
  else a +:+ "/" +:+ b.

Definition normpath_step (initial_slashes : nat) (new_comps : list string)
    (comp : string) : list string :=
  if String.eqb comp "" || String.eqb comp "." then new_comps
  else if negb (String.eqb comp "..")
          || (Nat.eqb initial_slashes 0 && Nat.eqb (length new_comps) 0)
          || match last new_comps with Some l => String.eqb l ".." | None => false end
       then new_comps ++ [comp]
       else removelast new_comps.

(** [os.path.normpath(path)] *)
Definition normpath (path : string) : string :=
  if String.eqb path "" then "."
  else
    let initial_slashes :=
      if Py.startswith path "/"
      then if Py.startswith path "//" && negb (Py.startswith path "///") then 2 else 1
      else 0 in
    let comps := fold_left (normpath_step initial_slashes) (Py.split sep path) [] in
    let path' := Py.slice_from (3 - initial_slashes) "///" +:+ Py.join "/" comps in
    if String.eqb path' "" then "." else path'.

End posixpath.

(** ** Exceptions, the diagnostic trace and the analysis monad

    Two exceptions can leave the analysis: the [KeyError] of a missing
    configuration key and the [re.error] of a pattern that does not compile.
    The logger is write-only: no method reads it back.  The trace keeps the
    diagnostics with which the paged loop reports what it did with a
    directory; the other debugging lines do not change any result and are
    left out. *)

Inductive exn : Type :=
| KeyError (key : string)
| ReError (pattern : string).

Inductive result (A : Type) : Type :=
| Ok (a : A)
| Raise (e : exn).
Arguments Ok {A} a.
Arguments Raise {A} e.

Record log_entry : Type := Log { message : string; argument : string }.

Definition M (A : Type) : Type := list log_entry → result A * list log_entry.

#[global] Instance M_ret : MRet M := λ A a tr, (Ok a, tr).
#[global] Instance M_bind : MBind M := λ A B f m tr,
  match m tr with
  | (Ok a, tr') => f a tr'
  | (Raise e, tr') => (Raise e, tr')
  end.

Definition raise {A} (e : exn) : M A := λ tr, (Raise e, tr).

Definition lift {A} (r : result A) : M A := λ tr, (r, tr).

(** [self._log(message % argument)] *)
Definition _log (message argument : string) : M unit :=
  λ tr, (Ok tt, tr ++ [Log message argument]).

(** [try: body except KeyError: handler] *)
Definition try_except_KeyError {A} (body handler : M A) : M A := λ tr,
  match body tr with
  | (Raise (KeyError _), tr') => handler tr'
  | r => r
  end.

(** [for x in l: acc = body(acc, x)] *)
Fixpoint for_each {A B} (body : B → A → M B) (l : list A) (acc : B) : M B :=
  match l with
  | [] => mret acc
  | x :: l' => acc' ← body acc x; for_each body l' acc'
  end.

(** [d[k]] on a configuration dictionary *)
Definition getitem (d : gmap string string) (k : string) : M string :=
  match d !! k with
  | Some v => mret v
  | None => raise (KeyError k)
  end.

(** ** Collaborators from the rest of the package *)

(** Modelled from the spec: aeneas.hierarchytype is not under src/.  The
    hierarchy kind is `one of two variants', Flat or Paged; the configuration
    holds it as text and the code compares that text with these constants. *)
Module HierarchyType.
Definition FLAT : string := "flat".
Definition PAGED : string := "paged".
End HierarchyType.

(** The names of aeneas.globalconstants that the module uses; their values
    are not under src/ and stay parameters. *)
Record GlobalConstants : Type := {
  PPN_JOB_IS_AUDIO_FILE_NAME_REGEX : string;
  PPN_JOB_IS_AUDIO_FILE_RELATIVE_PATH : string;
  PPN_JOB_IS_HIERARCHY_PREFIX : string;
  PPN_JOB_IS_HIERARCHY_TYPE : string;
  PPN_JOB_IS_TASK_DIRECTORY_NAME_REGEX : string;
  PPN_JOB_IS_TEXT_FILE_NAME_REGEX : string;
  PPN_JOB_IS_TEXT_FILE_RELATIVE_PATH : string;
  PPN_JOB_LANGUAGE : string;
  PPN_JOB_OS_HIERARCHY_PREFIX : string;
  PPN_JOB_OS_HIERARCHY_TYPE : string;
  PPN_TASK_CUSTOM_ID : string;
  PPN_TASK_IS_AUDIO_FILE_XML : string;
  PPN_TASK_IS_TEXT_FILE_XML : string;
  PPN_TASK_LANGUAGE : string;
  PPV_OS_TASK_PREFIX : string
}.

(** Modelled from the spec: aeneas.task is not under src/.  A Task has an
    `identifier (custom id, empty string allowed), resolved language, text
    resource path, audio resource path, computed output (sync-map) path,
    output reference templates'; the fields are those _create_task reads
    and writes.  The output file name is a string: a configuration that
    names none is outside the model. *)
Record TaskConfiguration : Type := {
  description : option string;
  language : option string;
  custom_id : option string;
  os_file_name : string;
  os_file_smil_audio_ref : option string;
  os_file_smil_page_ref : option string
}.

Record Task : Type := {
  configuration : TaskConfiguration;
  text_file_path : option string;
  audio_file_path : option string;
  sync_map_file_path : option string
}.

(** Modelled from the spec: aeneas.job is not under src/.  A Job `owns an
    ordered sequence of Tasks (insertion order = discovery order) plus the
    canonical Job-scope configuration string'. *)
Record Job : Type := {
  job_config_string : string;
  tasks : list Task
}.

Definition Job_init (config_string : string) : Job :=
  {| job_config_string := config_string; tasks := [] |}.

Definition add_task (job : Job) (task : Task) : Job :=
  {| job_config_string := job_config_string job; tasks := tasks job ++ [task] |}.

(** Modelled from the spec: aeneas.container is not under src/.  The
    Container is an `opaque provider' of the entry list, of the presence and
    path of either configuration form, and of a read operation. *)
Record Container : Type := {
  has_config_xml : bool;
  has_config_txt : bool;
  entry_config_xml : string;
  entry_config_txt : string;
  read_entry : string → option string;
  entries : list string
}.

(** ** The methods of [AnalyzeContainer] *)

Section AnalyzeContainer.

(** Functions of aeneas.globalfunctions, [re.compile] and the [Task]
    constructor: none is under src/, the methods are parametric in them. *)
Variable norm_join : string → string → string.
Variable file_name_without_extension : string → string.
Variable config_txt_to_string : option string → string.
Variable config_string_to_dict : string → gmap string string.
Variable config_xml_to_dict_job : option string → gmap string string.
Variable config_xml_to_dict_tasks : option string → list (gmap string string).
Variable config_dict_to_string : gmap string string → string.
Variable re_compile : string → option Re.regex.
Variable Task_init : string → Task.
Variable gc : GlobalConstants.

(** [_replace_placeholder(string, custom_id)] *)
Definition _replace_placeholder (str : option string) (custom_id : string)
    : option string :=
  match str with
  | None => None
  | Some s => Some (Py.replace s (PPV_OS_TASK_PREFIX gc) custom_id)
  end.

(** [_compute_sync_map_file_path(root, hierarchy_type, custom_id, file_name)] *)
Definition _compute_sync_map_file_path (root hierarchy_type custom_id
    file_name : string) : option string :=
  let prefix := root in
  let prefix :=
    if String.eqb hierarchy_type HierarchyType.PAGED
    then norm_join prefix custom_id else prefix in
  let file_name_joined := norm_join prefix file_name in
  _replace_placeholder (Some file_name_joined) custom_id.

(** [_find_files(entries, root, relative_path, file_name_regex)] *)
Definition _find_files (entries : list string) (root : string)
    (relative_path : option string) (file_name_regex : Re.regex) : list string :=
  let target :=
    match relative_path with
    | Some rp => norm_join root rp
    | None => root
    end in
  let target_len := Py.len target in
  let files :=
    fold_left (λ files entry,
      if Py.startswith entry target then
        let entry_suffix := Py.slice_from (target_len + 1) entry in
        if Re.re_search file_name_regex entry_suffix
        then files ++ [entry] else files
      else files) entries [] in
  Py.sorted files.

(** [_match_files_flat_hierarchy(text_files, audio_files)] *)
Definition _match_files_flat_hierarchy (text_files audio_files : list string)
    : list (string * string * string) :=
  let d_text :=
    fold_left (λ d text_file,
      PyDict.setitem d (file_name_without_extension text_file) text_file)
      text_files PyDict.empty in
  let d_audio :=
    fold_left (λ d audio_file,
      PyDict.setitem d (file_name_without_extension audio_file) audio_file)
      audio_files PyDict.empty in
  fold_left (λ tasks key,
    if PyDict.contains d_audio key then
      match PyDict.get d_text key, PyDict.get d_audio key with
      | Some t, Some a => tasks ++ [(key, t, a)]
      | _, _ => tasks
      end
    else tasks) (PyDict.keys d_text) [].

(** [_match_directories(entries, root, regex_string)] *)
Definition _match_directories (entries : list string) (root regex_string : string)
    : result (list string) :=
  match re_compile regex_string with
  | None => Raise (ReError regex_string)
  | Some regex =>
      let root_len := Py.len root in
      let directories :=
        fold_left (λ (directories : gset string) entry,
          if Py.startswith entry root then
            let entry := Py.slice_from (root_len + 1) entry in
            let entry_splitted := Py.split posixpath.sep entry in
            if (2 <=? length entry_splitted)%nat
               && Re.re_match regex (hd "" entry_splitted)
            then directories ∪ {[ hd "" entry_splitted ]}
            else directories
          else directories) entries ∅ in
      Ok (Py.sorted (elements directories))
  end.

(** [_create_task(task_info, config_string, sync_map_root_directory,
    job_os_hierarchy_type)]; [task_info] is the list
    [[prefix, text_path, audio_path]]. *)
Definition _create_task (task_info : string * string * string)
    (config_string sync_map_root_directory job_os_hierarchy_type : string)
    : M Task :=
  let '(info0, info1, info2) := task_info in
  let parameters := config_string_to_dict config_string in
  let task := Task_init config_string in
  let conf := configuration task in
  lang ← try_except_KeyError
            (getitem parameters (PPN_TASK_LANGUAGE gc))
            (getitem parameters (PPN_JOB_LANGUAGE gc));
  let custom_id := info0 in
  mret {|
    configuration := {|
      description := Some ("Task " +:+ info0);
      language := Some lang;
      custom_id := Some custom_id;
      os_file_name := os_file_name conf;
      os_file_smil_audio_ref :=
        _replace_placeholder (os_file_smil_audio_ref conf) custom_id;
      os_file_smil_page_ref :=
        _replace_placeholder (os_file_smil_page_ref conf) custom_id |};
    text_file_path := Some info1;
    audio_file_path := Some info2;
    sync_map_file_path :=
      _compute_sync_map_file_path sync_map_root_directory
        job_os_hierarchy_type custom_id (os_file_name conf) |}.

(** The loop [for task_info in matched_tasks] of the flat branch. *)
Definition flat_loop (config_string sync_map_root_directory
    job_os_hierarchy_type : string)
    (matched_tasks : list (string * string * string)) (job : Job) : M Job :=
  for_each (λ job task_info,
    task ← _create_task task_info config_string sync_map_root_directory
              job_os_hierarchy_type;
    mret (add_task job task)) matched_tasks job.

(** The body of the loop [for matched_directory in matched_directories]
    of the paged branch. *)
Definition paged_body (entries : list string) (tasks_root_directory : string)
    (text_file_relative_path : string) (text_file_name_regex : Re.regex)
    (audio_file_relative_path : string) (audio_file_name_regex : Re.regex)
    (config_string sync_map_root_directory job_os_hierarchy_type : string)
    (job : Job) (matched_directory : string) : M Job :=
  let matched_directory_full_path :=
    norm_join tasks_root_directory matched_directory in
  let text_files :=
    _find_files entries matched_directory_full_path
      (Some text_file_relative_path) text_file_name_regex in
  let audio_files :=
    _find_files entries matched_directory_full_path
      (Some audio_file_relative_path) audio_file_name_regex in
  if (length text_files =? 1)%nat && (length audio_files =? 1)%nat then
    _log "Exactly one text file and one audio file in '%s'" matched_directory;;
    let task_info :=
      (matched_directory, hd "" text_files, hd "" audio_files) in
    task ← _create_task task_info config_string sync_map_root_directory
              job_os_hierarchy_type;
    mret (add_task job task)
  else if (1 <? length text_files)%nat then
    _log "More than one text file in '%s'" matched_directory;;
    mret job
  else if (1 <? length audio_files)%nat then
    _log "More than one audio file in '%s'" matched_directory;;
    mret job
  else
    _log "No text nor audio file in '%s'" matched_directory;;
    mret job.

(** [_analyze_txt_config(config_string)] *)
Definition _analyze_txt_config (container : Container)
    (config_string : option string) : M Job :=
  let '(config_dir, config_string) :=
    match config_string with
    | None =>
        let config_entry := entry_config_txt container in
        let config_dir := posixpath.dirname config_entry in
        let config_contents := read_entry container config_entry in
        (config_dir, config_txt_to_string config_contents)
    | Some config_string => ("", config_string)
    end in
  let job := Job_init config_string in
  let entries := entries container in
  let parameters := config_string_to_dict config_string in
  is_prefix ← getitem parameters (PPN_JOB_IS_HIERARCHY_PREFIX gc);
  let tasks_root_directory := norm_join config_dir is_prefix in
  os_prefix ← getitem parameters (PPN_JOB_OS_HIERARCHY_PREFIX gc);
  let sync_map_root_directory := norm_join config_dir os_prefix in
  job_os_hierarchy_type ← getitem parameters (PPN_JOB_OS_HIERARCHY_TYPE gc);
  text_file_relative_path ←
    getitem parameters (PPN_JOB_IS_TEXT_FILE_RELATIVE_PATH gc);
  text_pattern ← getitem parameters (PPN_JOB_IS_TEXT_FILE_NAME_REGEX gc);
  text_file_name_regex ←
    from_option mret (raise (ReError text_pattern)) (re_compile text_pattern);
  audio_file_relative_path ←
    getitem parameters (PPN_JOB_IS_AUDIO_FILE_RELATIVE_PATH gc);
  audio_pattern ← getitem parameters (PPN_JOB_IS_AUDIO_FILE_NAME_REGEX gc);
  audio_file_name_regex ←
    from_option mret (raise (ReError audio_pattern)) (re_compile audio_pattern);
  (* flat hierarchy *)
  is_type ← getitem parameters (PPN_JOB_IS_HIERARCHY_TYPE gc);
  job ←
    (if String.eqb is_type HierarchyType.FLAT then
       let text_files :=
         _find_files entries tasks_root_directory
           (Some text_file_relative_path) text_file_name_regex in
       let audio_files :=
         _find_files entries tasks_root_directory
           (Some audio_file_relative_path) audio_file_name_regex in
       let matched_tasks := _match_files_flat_hierarchy text_files audio_files in
       flat_loop config_string sync_map_root_directory job_os_hierarchy_type
         matched_tasks job
     else mret job);
  (* paged hierarchy *)
  is_type ← getitem parameters (PPN_JOB_IS_HIERARCHY_TYPE gc);
  if String.eqb is_type HierarchyType.PAGED then
    dir_pattern ← getitem parameters (PPN_JOB_IS_TASK_DIRECTORY_NAME_REGEX gc);
    matched_directories ←
      lift (_match_directories entries tasks_root_directory dir_pattern);
    for_each
      (paged_body entries tasks_root_directory
         text_file_relative_path text_file_name_regex
         audio_file_relative_path audio_file_name_regex
         config_string sync_map_root_directory job_os_hierarchy_type)
      matched_directories job
  else mret job.

(** [_analyze_xml_config(config_contents)] *)
Definition _analyze_xml_config (container : Container)
    (config_contents : option string) : M Job :=
  let '(config_dir, config_contents) :=
    match config_contents with
    | None =>
        let config_entry := entry_config_xml container in
        let config_dir := posixpath.dirname config_entry in
        (config_dir, read_entry container config_entry)
    | Some config_contents => ("", Some config_contents)
    end in
  let job_parameters := config_xml_to_dict_job config_contents in
  let tasks_parameters := config_xml_to_dict_tasks config_contents in
  os_prefix ← getitem job_parameters (PPN_JOB_OS_HIERARCHY_PREFIX gc);
  let sync_map_root_directory := norm_join config_dir os_prefix in
  job_os_hierarchy_type ← getitem job_parameters (PPN_JOB_OS_HIERARCHY_TYPE gc);
  let config_string := config_dict_to_string job_parameters in
  let job := Job_init config_string in
  for_each (λ job task_parameters,
    let config_string := config_dict_to_string task_parameters in
    let custom_id := default "" (task_parameters !! PPN_TASK_CUSTOM_ID gc) in
    text ← getitem task_parameters (PPN_TASK_IS_TEXT_FILE_XML gc);
    audio ← getitem task_parameters (PPN_TASK_IS_AUDIO_FILE_XML gc);
    let task_info :=
      (custom_id, norm_join config_dir text, norm_join config_dir audio) in
    task ← _create_task task_info config_string sync_map_root_directory
              job_os_hierarchy_type;
    mret (add_task job task)) tasks_parameters job.

(** [analyze()]: [None] when the container has no configuration. *)
Definition analyze (container : Container) : M (option Job) :=
  if has_config_xml container then
    job ← _analyze_xml_config container None; mret (Some job)
  else if has_config_txt container then
    job ← _analyze_txt_config container None; mret (Some job)
  else mret None.

(** [analyze_from_wizard(config_string)] *)
Definition analyze_from_wizard (container : Container) (config_string : string)
    : M Job :=
  _analyze_txt_config container (Some config_string).

End AnalyzeContainer.

(** ** aeneas.globalfunctions and aeneas.globalconstants, for the examples *)

Module gf.

(** Modelled from the spec: gf.norm_join is not under src/.  The spec calls
    it a join of two paths (`target = join(root, relativePath)'); the name
    says the joined path is normalized, hence [os.path.join] followed by
    [os.path.normpath]. *)
Definition norm_join (prefix suffix : string) : string :=
  posixpath.normpath (posixpath.join prefix suffix).

(** Modelled from the spec: gf.file_name_without_extension is not under
    src/.  `Key = each entry's file name with its final extension removed';
    what `file name' means is fixed by the docstring of
    _match_files_flat_hierarchy in src/, whose examples give the key [a] for
    [foo/text/a.txt] and for [foo/audio/a.mp3]: the directory part goes
    ([os.path.basename]) and then the final extension ([os.path.splitext]). *)
Definition file_name_without_extension (path : string) : string :=
  posixpath.splitext_root (posixpath.basename path).

End gf.

Module gc.

(** Modelled from the spec: the values of aeneas.globalconstants are not
    under src/.  One name per entry of the `configuration key vocabulary',
    and [$PREFIX] for the identifier placeholder. *)
Definition values : GlobalConstants := {|
  PPN_JOB_IS_AUDIO_FILE_NAME_REGEX := "is_audio_file_name_regex";
  PPN_JOB_IS_AUDIO_FILE_RELATIVE_PATH := "is_audio_file_relative_path";
  PPN_JOB_IS_HIERARCHY_PREFIX := "is_hierarchy_prefix";
  PPN_JOB_IS_HIERARCHY_TYPE := "is_hierarchy_type";
  PPN_JOB_IS_TASK_DIRECTORY_NAME_REGEX := "is_task_dir_name_regex";
  PPN_JOB_IS_TEXT_FILE_NAME_REGEX := "is_text_file_name_regex";
  PPN_JOB_IS_TEXT_FILE_RELATIVE_PATH := "is_text_file_relative_path";
  PPN_JOB_LANGUAGE := "job_language";
  PPN_JOB_OS_HIERARCHY_PREFIX := "os_job_file_hierarchy_prefix";
  PPN_JOB_OS_HIERARCHY_TYPE := "os_job_file_hierarchy_type";
  PPN_TASK_CUSTOM_ID := "task_custom_id";
  PPN_TASK_IS_AUDIO_FILE_XML := "is_audio_file";
  PPN_TASK_IS_TEXT_FILE_XML := "is_text_file";
  PPN_TASK_LANGUAGE := "task_language";
  PPV_OS_TASK_PREFIX := "$PREFIX"
|}.

End gc.

(** ** Sample collaborators for the examples

    Small stand-ins for what a caller supplies: the patterns of the examples
    compiled by hand, a reader of [key=value|key=value] strings, and a Task
    constructor that takes its output templates from such a string. *)

Module Sample.

(** [.*\.txt] *)
Definition re_txt : Re.regex := Re.Cat (Re.Star Re.AnyChar) (Re.Lit ".txt").
(** [.*\.mp3] *)
Definition re_mp3 : Re.regex := Re.Cat (Re.Star Re.AnyChar) (Re.Lit ".mp3").
(** [[0-9]+] *)
Definition re_digits : Re.regex := Re.Plus (Re.Range "0" "9").
(** [[a-z]+] *)
Definition re_lower : Re.regex := Re.Plus (Re.Range "a" "z").

Definition re_compile (pattern : string) : option Re.regex :=
  if String.eqb pattern ".*\.txt" then Some re_txt
  else if String.eqb pattern ".*\.mp3" then Some re_mp3
  else if String.eqb pattern "[0-9]+" then Some re_digits
  else if String.eqb pattern "[a-z]+" then Some re_lower
  else None.

Definition config_string_to_dict (config_string : string) : gmap string string :=
  fold_left (λ d pair,
    match Py.split "="%char pair with
    | [k; v] => if String.eqb k "" || String.eqb v "" then d else <[k := v]> d
    | _ => d
    end) (Py.split "|"%char config_string) ∅.

Definition Task_init (config_string : string) : Task :=
  let d := config_string_to_dict config_string in
  {| configuration := {|
       description := None;
       language := d !! "task_language";
       custom_id := d !! "task_custom_id";
       os_file_name := default "" (d !! "os_task_file_name");
       os_file_smil_audio_ref := d !! "os_task_file_smil_audio_ref";
       os_file_smil_page_ref := d !! "os_task_file_smil_page_ref" |};
     text_file_path := None;
     audio_file_path := None;
     sync_map_file_path := None |}.

(** A paged configuration without any language key. *)
Definition paged_config : string :=
  "is_hierarchy_type=paged|is_hierarchy_prefix=pages|is_text_file_relative_path=.|is_text_file_name_regex=.*\.txt|is_audio_file_relative_path=.|is_audio_file_name_regex=.*\.mp3|is_task_dir_name_regex=[0-9]+|os_job_file_hierarchy_type=paged|os_job_file_hierarchy_prefix=out|os_task_file_name=$PREFIX.smil".


(** The configuration string of a simple configuration file: its text. *)
Definition config_txt_to_string (contents : option string) : string :=
  default "" contents.

(** Five page directories: a pair, a text alone, neither, two texts, two
    audios. *)
Definition pages : list string :=
  ["pages/1/page.txt"; "pages/1/page.mp3"; "pages/2/page.txt";
   "pages/3/other.bin";
   "pages/4/a.txt"; "pages/4/b.txt"; "pages/4/c.mp3";
   "pages/5/a.txt"; "pages/5/b.mp3"; "pages/5/c.mp3"].

Definition container (entries : list string) : Container :=
  {| has_config_xml := false;
     has_config_txt := false;
     entry_config_xml := "";
     entry_config_txt := "";
     read_entry := λ _, None;
     entries := entries |}.

(** A structured configuration with one Task, read off the XML by hand,
    and the inverse of the reader above. *)
Definition config_xml_to_dict_job (contents : option string) : gmap string string :=
  match contents with
  | Some _ =>
      {[ "job_language" := "en";
         "os_job_file_hierarchy_type" := "flat";
         "os_job_file_hierarchy_prefix" := "out" ]}
  | None => ∅
  end.

Definition config_xml_to_dict_tasks (contents : option string)
    : list (gmap string string) :=
  match contents with
  | Some _ =>
      [ {[ "task_language" := "it";
           "task_custom_id" := "ch01";
           "is_text_file" := "text/ch01.txt";
           "is_audio_file" := "audio/ch01.mp3";
           "os_task_file_name" := "$PREFIX.smil" ]} ]
  | None => []
  end.

Definition config_dict_to_string (d : gmap string string) : string :=
  Py.join "|" (map (λ kv, kv.1 +:+ "=" +:+ kv.2) (map_to_list d)).

(** A container with both configuration forms, and one with the
    structured form only. *)
Definition both_configs : Container :=
  {| has_config_xml := true;
     has_config_txt := true;
     entry_config_xml := "OEBPS/config.xml";
     entry_config_txt := "OEBPS/config.txt";
     read_entry := λ p,
       if String.eqb p "OEBPS/config.xml" then Some "<job/>"
       else if String.eqb p "OEBPS/config.txt" then Some paged_config
       else None;
     entries := ["OEBPS/config.xml"; "OEBPS/config.txt"] ++ pages |}.

Definition xml_only : Container :=
  {| has_config_xml := true;
     has_config_txt := false;
     entry_config_xml := "OEBPS/config.xml";
     entry_config_txt := "";
     read_entry := λ p,
       if String.eqb p "OEBPS/config.xml" then Some "<job/>" else None;
     entries := ["OEBPS/config.xml"] |}.

End Sample.

(** ** Predicates of the statements *)

(** Some non-empty end of [a] is a beginning of [b]. *)
Fixpoint overlaps (a b : string) : bool :=
  match a with
  | EmptyString => false
  | String _ a' => Py.startswith b a || overlaps a' b
  end.

(** The identifier and the token stay clear of each other: neither occurs
    in the other, and no non-empty end of one is a beginning of the other. *)
Definition no_overlap (token custom_id : string) : bool :=
  negb (Py.contains custom_id token) && negb (Py.contains token custom_id)
  && negb (overlaps token custom_id) && negb (overlaps custom_id token).

Section PairingSpec.
Variable key : string → string.

(** [t] is the last entry of [l] whose key is [k]. *)
Definition is_last_with_key (l : list string) (k t : string) : Prop :=
  ∃ l1 l2, l = l1 ++ t :: l2 ∧ key t = k ∧ Forall (λ e, key e ≠ k) l2.

(** The same, computed. *)
Fixpoint last_with_key (l : list string) (k : string) : option string :=
  match l with
  | [] => None
  | x :: l' =>
      match last_with_key l' k with
      | Some t => Some t
      | None => if String.eqb (key x) k then Some x else None
      end
  end.


(** The dictionary the first two loops of _match_files_flat_hierarchy build. *)
Definition keyed (l : list string) (d : PyDict.dict string) : PyDict.dict string :=
  fold_left (λ d f, PyDict.setitem d (key f) f) l d.
End PairingSpec.

(** The diagnostic the paged loop logs for a directory, from the files the
    two filters found in it. *)
Definition diagnostic (text_files audio_files : list string) : string :=
  if (length text_files =? 1)%nat && (length audio_files =? 1)%nat
  then "Exactly one text file and one audio file in '%s'"
  else if (1 <? length text_files)%nat then "More than one text file in '%s'"
  else if (1 <? length audio_files)%nat then "More than one audio file in '%s'"
  else "No text nor audio file in '%s'".

(** Neither language key is in the dictionary. *)
Definition no_language (gc : GlobalConstants) (parameters : gmap string string) : Prop :=
  parameters !! PPN_TASK_LANGUAGE gc = None ∧ parameters !! PPN_JOB_LANGUAGE gc = None.

(** The configuration string that _analyze_txt_config works with. *)
Definition txt_config_string (config_txt_to_string : option string → string)
    (container : Container) (config_string : option string) : string :=
  match config_string with
  | Some s => s
  | None => config_txt_to_string (read_entry container (entry_config_txt container))
  end.

(** The XML contents that _analyze_xml_config works with. *)
Definition xml_config_contents (container : Container)
    (config_contents : option string) : option string :=
  match config_contents with
  | Some s => Some s
  | None => read_entry container (entry_config_xml container)
  end.

(** What [s.replace(old, new)] is meant to compute for a non-empty [old]:
    going through [s] from the left, an occurrence of [old] becomes [new]
    and the scan goes on after it; any other character is kept. *)
Inductive Substituted (old new : string) : string → string → Prop :=
| Substituted_nil : Substituted old new "" ""
| Substituted_hit (rest r : string) :
    Substituted old new rest r →
    Substituted old new (old +:+ rest) (new +:+ r)
| Substituted_miss (c : ascii) (s r : string) :
    Py.startswith (String c s) old = false →
    Substituted old new s r →
    Substituted old new (String c s) (String c r).

(** The test that _find_files applies to an entry. *)
Definition qualifies (target : string) (file_name_regex : Re.regex)
    (entry : string) : bool :=
  Py.startswith entry target
  && Re.re_search file_name_regex (Py.slice_from (Py.len target + 1) entry).

(** The directory _find_files searches. *)
Definition target_of (norm_join : string → string → string) (root : string)
    (relative_path : option string) : string :=
  match relative_path with
  | Some rp => norm_join root rp
  | None => root
  end.

(** [entry] makes _match_directories accept the name [d]. *)
Definition yields (root : string) (regex : Re.regex) (entry d : string) : Prop :=
  Py.startswith entry root = true ∧
  let entry_splitted := Py.split posixpath.sep (Py.slice_from (Py.len root + 1) entry) in
  (2 ≤ length entry_splitted)%nat ∧ hd "" entry_splitted = d ∧
  Re.re_match regex d = true.

(** The third loop, as a list comprehension. *)
Definition emitted (d_text d_audio : PyDict.dict string) (k : string)
    : list (string * string * string) :=
  match PyDict.get d_text k, PyDict.get d_audio k with
  | Some t, Some a => [(k, t, a)]
  | _, _ => []
  end.

(** The files the two filters find in a matched directory of the paged
    hierarchy, and what the loop makes of them. *)
Section PagedStatements.
Variable norm_join : string → string → string.
Variables (entries : list string) (tasks_root_directory : string).
Variables (text_file_relative_path : string) (text_file_name_regex : Re.regex).
Variables (audio_file_relative_path : string) (audio_file_name_regex : Re.regex).

Definition text_files_in (d : string) : list string :=
  _find_files norm_join entries (norm_join tasks_root_directory d)
    (Some text_file_relative_path) text_file_name_regex.

Definition audio_files_in (d : string) : list string :=
  _find_files norm_join entries (norm_join tasks_root_directory d)
    (Some audio_file_relative_path) audio_file_name_regex.

Definition exactly_one (d : string) : bool :=
  (length (text_files_in d) =? 1)%nat && (length (audio_files_in d) =? 1)%nat.

Definition task_info_of (d : string) : string * string * string :=
  (d, hd "" (text_files_in d), hd "" (audio_files_in d)).

End PagedStatements.

(** Unfolding of the analysis monad. *)
Ltac munfold :=
  unfold mbind, M_bind, mret, M_ret, raise, lift, _log, getitem,
    try_except_KeyError in *.

(** ** Predicates of the further properties *)

(** The directory of the simple configuration that _analyze_txt_config
    works with. *)
Definition txt_config_dir (container : Container) (config_string : option string)
    : string :=
  match config_string with
  | Some _ => ""
  | None => posixpath.dirname (entry_config_txt container)
  end.

(** The directory of the structured configuration. *)
Definition xml_config_dir (container : Container) (config_contents : option string)
    : string :=
  match config_contents with
  | Some _ => ""
  | None => posixpath.dirname (entry_config_xml container)
  end.

(** What _analyze_txt_config reads from the configuration before it looks
    at the hierarchy: eight keys, two of them patterns that compile. *)
Record txt_prelude (gc : GlobalConstants) (re_compile : string → option Re.regex)
    (parameters : gmap string string) : Type := {
  is_hierarchy_prefix : string;
  os_hierarchy_prefix : string;
  os_hierarchy_type : string;
  text_relative_path : string;
  text_pattern : string;
  text_regex : Re.regex;
  audio_relative_path : string;
  audio_pattern : string;
  audio_regex : Re.regex;
  is_hierarchy_type : string;
  has_is_hierarchy_prefix :
    parameters !! PPN_JOB_IS_HIERARCHY_PREFIX gc = Some is_hierarchy_prefix;
  has_os_hierarchy_prefix :
    parameters !! PPN_JOB_OS_HIERARCHY_PREFIX gc = Some os_hierarchy_prefix;
  has_os_hierarchy_type :
    parameters !! PPN_JOB_OS_HIERARCHY_TYPE gc = Some os_hierarchy_type;
  has_text_relative_path :
    parameters !! PPN_JOB_IS_TEXT_FILE_RELATIVE_PATH gc = Some text_relative_path;
  has_text_pattern :
    parameters !! PPN_JOB_IS_TEXT_FILE_NAME_REGEX gc = Some text_pattern;
  text_pattern_compiles : re_compile text_pattern = Some text_regex;
  has_audio_relative_path :
    parameters !! PPN_JOB_IS_AUDIO_FILE_RELATIVE_PATH gc = Some audio_relative_path;
  has_audio_pattern :
    parameters !! PPN_JOB_IS_AUDIO_FILE_NAME_REGEX gc = Some audio_pattern;
  audio_pattern_compiles : re_compile audio_pattern = Some audio_regex;
  has_is_hierarchy_type :
    parameters !! PPN_JOB_IS_HIERARCHY_TYPE gc = Some is_hierarchy_type
}.

(** What _analyze_txt_config does once these are read: the flat branch, then
    the paged branch. *)
Definition txt_after_prelude
    (norm_join : string → string → string)
    (file_name_without_extension : string → string)
    (config_string_to_dict : string → gmap string string)
    (re_compile : string → option Re.regex)
    (Task_init : string → Task) (gc : GlobalConstants)
    (entries : list string) (config_dir config_string : string)
    (P : txt_prelude gc re_compile (config_string_to_dict config_string)) : M Job :=
  let parameters := config_string_to_dict config_string in
  let tasks_root_directory := norm_join config_dir (is_hierarchy_prefix _ _ _ P) in
  let sync_map_root_directory := norm_join config_dir (os_hierarchy_prefix _ _ _ P) in
  job ←
    (if String.eqb (is_hierarchy_type _ _ _ P) HierarchyType.FLAT then
       flat_loop norm_join config_string_to_dict Task_init gc config_string
         sync_map_root_directory (os_hierarchy_type _ _ _ P)
         (_match_files_flat_hierarchy file_name_without_extension
            (_find_files norm_join entries tasks_root_directory
               (Some (text_relative_path _ _ _ P)) (text_regex _ _ _ P))
            (_find_files norm_join entries tasks_root_directory
               (Some (audio_relative_path _ _ _ P)) (audio_regex _ _ _ P)))
         (Job_init config_string)
     else mret (Job_init config_string));
  if String.eqb (is_hierarchy_type _ _ _ P) HierarchyType.PAGED then
    dir_pattern ← getitem parameters (PPN_JOB_IS_TASK_DIRECTORY_NAME_REGEX gc);
    matched_directories ←
      lift (_match_directories re_compile entries tasks_root_directory dir_pattern);
    for_each
      (paged_body norm_join config_string_to_dict Task_init gc entries
         tasks_root_directory
         (text_relative_path _ _ _ P) (text_regex _ _ _ P)
         (audio_relative_path _ _ _ P) (audio_regex _ _ _ P)
         config_string sync_map_root_directory (os_hierarchy_type _ _ _ P))
      matched_directories job
  else mret job.

(** What _create_task leaves in a Task built for the unit [task_info]. *)
Definition built_for (norm_join : string → string → string)
    (Task_init : string → Task) (gc : GlobalConstants)
    (config_string sync_map_root_directory job_os_hierarchy_type : string)
    (task_info : string * string * string) (task : Task) : Prop :=
  custom_id (configuration task) = Some task_info.1.1 ∧
  description (configuration task) = Some ("Task " +:+ task_info.1.1) ∧
  text_file_path task = Some task_info.1.2 ∧
  audio_file_path task = Some task_info.2 ∧
  sync_map_file_path task =
    _compute_sync_map_file_path norm_join gc sync_map_root_directory
      job_os_hierarchy_type task_info.1.1
      (os_file_name (configuration (Task_init config_string))).

(** An exception that the configuration accounts for: the KeyError of a key
    the dictionary does not have, or the error of a pattern that does not
    compile. *)
Definition accounted_for (re_compile : string → option Re.regex)
    (parameters : gmap string string) (e : exn) : Prop :=
  match e with
  | KeyError k => parameters !! k = None
  | ReError p => re_compile p = None
  end.

(** A flat container for the examples: two texts and one audio, with a
    language; and a configuration of an unknown hierarchy type. *)
Module SampleFlat.

Definition flat_config : string :=
  "is_hierarchy_type=flat|is_hierarchy_prefix=assets|is_text_file_relative_path=text|is_text_file_name_regex=.*\.txt|is_audio_file_relative_path=audio|is_audio_file_name_regex=.*\.mp3|os_job_file_hierarchy_type=flat|os_job_file_hierarchy_prefix=out|os_task_file_name=$PREFIX.smil|job_language=en".

Definition tree_config : string :=
  "is_hierarchy_type=tree|is_hierarchy_prefix=assets|is_text_file_relative_path=text|is_text_file_name_regex=.*\.txt|is_audio_file_relative_path=audio|is_audio_file_name_regex=.*\.mp3|os_job_file_hierarchy_type=flat|os_job_file_hierarchy_prefix=out".

Definition assets : list string :=
  ["assets/text/ch1.txt"; "assets/audio/ch1.mp3"; "assets/text/ch2.txt"].

(** The same with its simple configuration file at the top level. *)
Definition txt_only : Container :=
  {| has_config_xml := false;
     has_config_txt := true;
     entry_config_xml := "";
     entry_config_txt := "config.txt";
     read_entry := λ p,
       if String.eqb p "config.txt" then Some flat_config else None;
     entries := "config.txt" :: assets |}.

End SampleFlat.

(** What the structured analysis leaves in the Task of the mapping [tp]. *)
Definition xml_task_of (norm_join : string → string → string)
    (gc : GlobalConstants) (config_dir : string)
    (tp : gmap string string) (task : Task) : Prop :=
  custom_id (configuration task) = Some (default "" (tp !! PPN_TASK_CUSTOM_ID gc)) ∧
  text_file_path task = (norm_join config_dir <$> tp !! PPN_TASK_IS_TEXT_FILE_XML gc) ∧
  audio_file_path task = (norm_join config_dir <$> tp !! PPN_TASK_IS_AUDIO_FILE_XML gc) ∧
  is_Some (language (configuration task)).

(** * Theorems *)

(** ** The model on concrete inputs *)

Example replace_leftmost : Py.replace "aaa" "aa" "b" = "ba".
Proof. reflexivity. Qed.
Example replace_empty_old : Py.replace "abc" "" "-" = "-a-b-c-".
Proof. reflexivity. Qed.
Example split_keeps_empty : Py.split "/" "a//b" = ["a"; ""; "b"].
Proof. reflexivity. Qed.
Example sorted_code_points : Py.sorted ["b"; "a"; "B"] = ["B"; "a"; "b"].
Proof. vm_compute. reflexivity. Qed.
Example dirname_nested : posixpath.dirname "OEBPS/Resources/config.txt" = "OEBPS/Resources".
Proof. reflexivity. Qed.
Example dirname_bare : posixpath.dirname "config.txt" = "".
Proof. reflexivity. Qed.
Example dirname_root : posixpath.dirname "/config.txt" = "/".
Proof. reflexivity. Qed.
Example splitext_last_dot : posixpath.splitext_root "a.d/x.tar.gz" = "a.d/x.tar".
Proof. reflexivity. Qed.
Example splitext_leading_dot : posixpath.splitext_root "a.d/.bashrc" = "a.d/.bashrc".
Proof. reflexivity. Qed.
Example norm_join_collapses : gf.norm_join "" "OEBPS/./Resources/../x/" = "OEBPS/x".
Proof. reflexivity. Qed.
Example norm_join_parent : gf.norm_join "a" "../../b" = "../b".
Proof. reflexivity. Qed.
Example norm_join_dot : gf.norm_join "" "." = ".".
Proof. reflexivity. Qed.
Example norm_join_absolute : gf.norm_join "a" "/b" = "/b".
Proof. reflexivity. Qed.
Example search_anywhere : Re.re_search (Re.Lit ".txt") "/a.txt.bak" = true.
Proof. reflexivity. Qed.
Example match_at_start : Re.re_match Sample.re_digits "12a" = true.
Proof. reflexivity. Qed.
Example match_not_later : Re.re_match Sample.re_digits "a12" = false.
Proof. reflexivity. Qed.

(** The examples of the docstring of _match_files_flat_hierarchy. *)
Example match_files_docstring :
  _match_files_flat_hierarchy gf.file_name_without_extension
    ["foo/text/a.txt"] ["foo/audio/a.mp3"]
  = [("a", "foo/text/a.txt", "foo/audio/a.mp3")] ∧
  _match_files_flat_hierarchy gf.file_name_without_extension
    ["foo/text/a.txt"] ["foo/audio/b.mp3"] = [] ∧
  _match_files_flat_hierarchy gf.file_name_without_extension
    ["foo/res/c.txt"] ["foo/res/c.mp3"]
  = [("c", "foo/res/c.txt", "foo/res/c.mp3")] ∧
  _match_files_flat_hierarchy gf.file_name_without_extension
    ["foo/res/d.txt"] ["foo/res/e.mp3"] = [].
Proof. repeat split; vm_compute; reflexivity. Qed.

(** The tree of the docstring of _match_directories; the names come back
    without the root. *)
Example match_directories_docstring :
  _match_directories Sample.re_compile
    ["/foo/bar/1/bar"; "/foo/bar/1/baz"; "/foo/bar/2/bar"; "/foo/bar/3/foo"]
    "/foo/bar" "[0-9]+"
  = Ok ["1"; "2"; "3"].
Proof. vm_compute. reflexivity. Qed.

(** An entry directly in the root yields no directory. *)
Example match_directories_depth :
  _match_directories Sample.re_compile ["root/7"; "root/8/bar"] "root" "[0-9]+"
  = Ok ["8"].
Proof. vm_compute. reflexivity. Qed.

(** A pattern that does not compile. *)
Example match_directories_bad_pattern :
  _match_directories Sample.re_compile ["root/8/bar"] "root" "[0-9"
  = Raise (ReError "[0-9").
Proof. vm_compute. reflexivity. Qed.

(** The paged analysis of five directories without a language: the first
    directory has one file of each kind and the call ends there. *)
Example analyze_paged_without_language :
  _analyze_txt_config gf.norm_join gf.file_name_without_extension
    Sample.config_txt_to_string Sample.config_string_to_dict Sample.re_compile
    Sample.Task_init gc.values (Sample.container Sample.pages)
    (Some Sample.paged_config) []
  = (Raise (KeyError "job_language"),
     [Log "Exactly one text file and one audio file in '%s'" "1"]).
Proof. vm_compute. reflexivity. Qed.

(** An empty identifier can put a token together out of two pieces. *)
Example replace_placeholder_empty_identifier :
  _replace_placeholder gc.values (Some "$PRE$PREFIXFIX") "" = Some "$PREFIX".
Proof. reflexivity. Qed.

(** ** Strings *)

#[local] Arguments String.append !_ _ / : simpl nomatch.

Section PyFacts.

Lemma append_nil_r (s : string) : s +:+ "" = s.
Proof. induction s; simpl; congruence. Qed.

Lemma append_assoc (a b c : string) : (a +:+ b) +:+ c = a +:+ (b +:+ c).
Proof. induction a; simpl; congruence. Qed.

Lemma startswith_nil (s : string) : Py.startswith s "" = true.
Proof. destruct s; reflexivity. Qed.

Lemma startswith_app (t r : string) : Py.startswith (t +:+ r) t = true.
Proof.
  induction t as [|c t IH]; simpl.
  - apply startswith_nil.
  - rewrite Ascii.eqb_refl. exact IH.
Qed.

Lemma startswith_inv (s t : string) :
  Py.startswith s t = true → s = t +:+ Py.slice_from (Py.len t) s.
Proof.
  revert s. induction t as [|b t IH]; intros s H.
  - reflexivity.
  - destruct s as [|a s]; simpl in H; [discriminate|].
    destruct (Ascii.eqb a b) eqn:E; [|discriminate].
    apply Ascii.eqb_eq in E. subst b. simpl. f_equal. apply IH, H.
Qed.

Lemma slice_from_app (a b : string) : Py.slice_from (Py.len a) (a +:+ b) = b.
Proof. induction a; simpl; auto. Qed.

Lemma len_app (a b : string) : Py.len (a +:+ b) = Py.len a + Py.len b.
Proof. unfold Py.len. induction a; simpl; auto. Qed.

(** The characters of an occurrence that has been replaced are skipped. *)
Lemma replace_go_skip (old new a b : string) :
  Py.replace_go old new (Py.len a) (a +:+ b) = Py.replace_go old new 0 b.
Proof.
  induction a as [|c a IH]; simpl.
  - reflexivity.
  - exact IH.
Qed.

Lemma replace_nil (old new : string) :
  old ≠ "" → Py.replace "" old new = "".
Proof. destruct old; [congruence | reflexivity]. Qed.

Lemma replace_hit (old new rest : string) :
  old ≠ "" → Py.replace (old +:+ rest) old new = new +:+ Py.replace rest old new.
Proof.
  destruct old as [|o old]; [congruence|]. intros _.
  unfold Py.replace.
  change (String o old +:+ rest) with (String o (old +:+ rest)).
  cbn [Py.replace_go].
  change (String o (old +:+ rest)) with (String o old +:+ rest).
  rewrite startswith_app.
  change (Nat.pred (Py.len (String o old))) with (Py.len old).
  rewrite replace_go_skip. reflexivity.
Qed.

Lemma replace_miss (old new : string) (c : ascii) (s : string) :
  old ≠ "" → Py.startswith (String c s) old = false →
  Py.replace (String c s) old new = String c (Py.replace s old new).
Proof.
  destruct old as [|o old]; [congruence|]. intros _ H.
  unfold Py.replace. cbn [Py.replace_go]. rewrite H. reflexivity.
Qed.

(** Induction along the scan of [replace]. *)
Lemma replace_scan_ind (old : string) (Hold : old ≠ "") (P : string → Prop) :
  P "" →
  (∀ rest, P rest → P (old +:+ rest)) →
  (∀ c s, Py.startswith (String c s) old = false → P s → P (String c s)) →
  ∀ s, P s.
Proof.
  intros Hnil Hhit Hmiss s.
  remember (Py.len s) as n eqn:Hn.
  revert s Hn. induction n as [n IH] using lt_wf_ind. intros s Hn.
  destruct s as [|c s]; [exact Hnil|].
  destruct (Py.startswith (String c s) old) eqn:E.
  - apply startswith_inv in E. rewrite E. apply Hhit.
    apply (IH (Py.len (Py.slice_from (Py.len old) (String c s)))); [|reflexivity].
    subst n. rewrite E at 2. rewrite len_app.
    destruct old; [congruence|]. unfold Py.len. simpl. lia.
  - apply Hmiss; [exact E|]. apply (IH (Py.len s)); [|reflexivity].
    subst n. unfold Py.len. simpl. lia.
Qed.

Lemma contains_false_inv (c : ascii) (s old : string) :
  Py.contains (String c s) old = false →
  Py.startswith (String c s) old = false ∧ Py.contains s old = false.
Proof.
  cbn [Py.contains]. intros H. apply orb_false_iff in H. exact H.
Qed.

(** Without an occurrence there is nothing to replace. *)
Lemma replace_absent (s old new : string) :
  old ≠ "" → Py.contains s old = false → Py.replace s old new = s.
Proof.
  intros Hold. induction s as [|c s IH]; intros H.
  - apply replace_nil, Hold.
  - apply contains_false_inv in H as [H1 H2].
    rewrite replace_miss by assumption. f_equal. apply IH, H2.
Qed.

(** *** Substitution without overlap *)

Lemma startswith_app_cases (v r t : string) :
  Py.startswith (v +:+ r) t = true →
  Py.startswith v t = true ∨ Py.startswith t v = true.
Proof.
  revert t. induction v as [|c v IH]; intros t H.
  - right. apply startswith_nil.
  - destruct t as [|d t]; [left; reflexivity|].
    simpl in H |- *. rewrite (Ascii.eqb_sym d c).
    destruct (Ascii.eqb c d); [|discriminate]. apply IH, H.
Qed.

Lemma contains_app_clear (v r t : string) :
  Py.contains r t = false → Py.contains v t = false → overlaps v t = false →
  Py.contains (v +:+ r) t = false.
Proof.
  intros Hr. induction v as [|c v IH]; intros Hc Ho; [exact Hr|].
  apply contains_false_inv in Hc as [Hs Hc].
  cbn [overlaps] in Ho. apply orb_false_iff in Ho as [Ht Ho].
  change (String c v +:+ r) with (String c (v +:+ r)). cbn [Py.contains].
  rewrite (IH Hc Ho), orb_false_r.
  destruct (Py.startswith (String c (v +:+ r)) t) eqn:E; [|reflexivity].
  apply (startswith_app_cases (String c v) r t) in E as [E|E]; congruence.
Qed.

Lemma overlaps_suffix (x q w : string) :
  q ≠ "" → Py.startswith w q = true → overlaps (x +:+ q) w = true.
Proof.
  intros Hq Hs. induction x as [|c x IH]; simpl.
  - destruct q as [|d q]; [congruence|]. cbn [overlaps]. rewrite Hs. reflexivity.
  - rewrite IH. apply orb_true_r.
Qed.

Lemma contains_suffix (x q w : string) :
  Py.startswith q w = true → Py.contains (x +:+ q) w = true.
Proof.
  intros Hs. induction x as [|c x IH]; simpl.
  - destruct q; cbn [Py.contains]; rewrite Hs; reflexivity.
  - rewrite IH. apply orb_true_r.
Qed.

(** An end of the token that begins the substituted string began the
    string before the substitution. *)
Lemma startswith_replace_suffix (t w : string) :
  t ≠ "" → Py.contains t w = false → overlaps t w = false →
  ∀ s x q, t = x +:+ q →
    Py.startswith (Py.replace s t w) q = true → Py.startswith s q = true.
Proof.
  intros Ht Hc Ho s.
  induction s as [|rest IH|c s Hmiss IH] using (replace_scan_ind t Ht);
    intros x q Hx H.
  - rewrite replace_nil in H by exact Ht. exact H.
  - destruct q as [|d q]; [apply startswith_nil|]. exfalso.
    rewrite replace_hit in H by exact Ht.
    apply startswith_app_cases in H as [H|H].
    + pose proof (overlaps_suffix x (String d q) w ltac:(discriminate) H) as E.
      rewrite <- Hx in E. congruence.
    + pose proof (contains_suffix x (String d q) w H) as E.
      rewrite <- Hx in E. congruence.
  - rewrite replace_miss in H by assumption.
    destruct q as [|d q]; [reflexivity|].
    cbn [Py.startswith] in H |- *. destruct (Ascii.eqb c d); [|discriminate].
    apply (IH (x +:+ String d "") q); [|exact H].
    rewrite Hx, append_assoc. reflexivity.
Qed.

Lemma no_overlap_inv (token custom_id : string) :
  no_overlap token custom_id = true →
  token ≠ "" ∧ custom_id ≠ "" ∧
  Py.contains custom_id token = false ∧ Py.contains token custom_id = false ∧
  overlaps token custom_id = false ∧ overlaps custom_id token = false.
Proof.
  unfold no_overlap. rewrite !andb_true_iff, !negb_true_iff.
  intros [[[Ha Hb] Hc] Hd]. repeat split; try assumption.
  - intros ->. destruct custom_id; discriminate.
  - intros ->. destruct token; discriminate.
Qed.

(** Without overlap the substituted string has no occurrence of the token
    left. *)
Lemma replace_clears (s token custom_id : string) :
  no_overlap token custom_id = true →
  Py.contains (Py.replace s token custom_id) token = false.
Proof.
  intros (Ht & Hid & Ha & Hb & Hc & Hd)%no_overlap_inv.
  induction s as [|rest IH|c s Hmiss IH] using (replace_scan_ind token Ht).
  - rewrite replace_nil by exact Ht. destruct token; [congruence|reflexivity].
  - rewrite replace_hit by exact Ht. apply contains_app_clear; assumption.
  - destruct (Py.contains (Py.replace (String c s) token custom_id) token) eqn:E;
      [|reflexivity].
    rewrite replace_miss in E by assumption.
    cbn [Py.contains] in E. rewrite IH, orb_false_r in E.
    rewrite <- (replace_miss token custom_id c s) in E by assumption.
    apply (startswith_replace_suffix token custom_id Ht Hb Hc _ "" token eq_refl) in E.
    congruence.
Qed.

(** A beginning of [t] has its characters in [t]. *)
Lemma startswith_get (t q : string) (n : nat) (ch : ascii) :
  Py.startswith t q = true → String.get n q = Some ch → Py.has_char ch t = true.
Proof.
  revert t n. induction q as [|d q IH]; intros t n Hs Hg; [discriminate|].
  destruct t as [|c t]; [discriminate|]. cbn [Py.startswith] in Hs.
  destruct (Ascii.eqb c d) eqn:E; [|discriminate].
  apply Ascii.eqb_eq in E as ->. cbn [Py.has_char].
  destruct n as [|n]; simpl in Hg.
  - injection Hg as <-. rewrite Ascii.eqb_refl. reflexivity.
  - rewrite (IH t n Hs Hg). apply orb_true_r.
Qed.

Lemma has_char_tail (ch c : ascii) (t : string) :
  Py.has_char ch t = true → Py.has_char ch (String c t) = true.
Proof. intros H. cbn [Py.has_char]. rewrite H. apply orb_true_r. Qed.

(** A character that begins an overlap of [a] with [b] is in [a]. *)
Lemma overlaps_first (a b : string) (ch : ascii) :
  overlaps a b = true → String.get 0 b = Some ch → Py.has_char ch a = true.
Proof.
  intros H Hb. induction a as [|c a IH]; [discriminate|].
  cbn [overlaps] in H. apply orb_true_iff in H as [H|H].
  - destruct b as [|d b]; [discriminate|]. simpl in Hb. injection Hb as ->.
    cbn [Py.startswith] in H. destruct (Ascii.eqb ch c) eqn:E; [|discriminate].
    apply Ascii.eqb_eq in E as ->. cbn [Py.has_char].
    rewrite Ascii.eqb_refl. reflexivity.
  - apply has_char_tail, IH, H.
Qed.

(** The last character of [a] ends every overlap of [a] with [b], so it is
    in [b]. *)
Lemma overlaps_last (a b : string) (ch : ascii) :
  overlaps a b = true → String.get (String.length a - 1) a = Some ch →
  Py.has_char ch b = true.
Proof.
  induction a as [|c a IH]; intros H Hg; [discriminate|].
  cbn [overlaps] in H. apply orb_true_iff in H as [H|H].
  - eapply startswith_get; eassumption.
  - apply IH; [exact H|]. destruct a as [|c' a]; [discriminate|].
    simpl in Hg |- *. rewrite Nat.sub_0_r. exact Hg.
Qed.

Lemma contains_get (t q : string) (ch : ascii) :
  Py.contains t q = true → String.get 0 q = Some ch → Py.has_char ch t = true.
Proof.
  intros H Hg. induction t as [|c t IH].
  - cbn [Py.contains] in H. rewrite orb_false_r in H.
    eapply startswith_get; eassumption.
  - cbn [Py.contains] in H. apply orb_true_iff in H as [H|H].
    + eapply startswith_get; eassumption.
    + apply has_char_tail, IH, H.
Qed.

(** An identifier that does not contain the token and whose first and last
    characters are not among those of the token stays clear of it. *)
Lemma no_overlap_of_ends (token custom_id : string) (first last : ascii) :
  String.get 0 custom_id = Some first →
  String.get (String.length custom_id - 1) custom_id = Some last →
  Py.has_char first token = false → Py.has_char last token = false →
  Py.contains custom_id token = false →
  no_overlap token custom_id = true.
Proof.
  intros Hf Hl Hft Hlt Hc. unfold no_overlap.
  rewrite Hc. cbn [negb andb].
  destruct (Py.contains token custom_id) eqn:E1.
  { rewrite (contains_get _ _ _ E1 Hf) in Hft. discriminate. }
  destruct (overlaps token custom_id) eqn:E2.
  { rewrite (overlaps_first _ _ _ E2 Hf) in Hft. discriminate. }
  destruct (overlaps custom_id token) eqn:E3.
  { rewrite (overlaps_last _ _ _ E3 Hl) in Hlt. discriminate. }
  reflexivity.
Qed.

End PyFacts.

Section SubstitutedFacts.

Lemma replace_Substituted (s old new : string) :
old ≠ "" → Substituted old new s (Py.replace s old new).
Proof.
intros Hold.
induction s as [|rest IH|c s Hmiss IH] using (replace_scan_ind old Hold).
- rewrite replace_nil by exact Hold. constructor.
- rewrite replace_hit by exact Hold. constructor. exact IH.
- rewrite replace_miss by assumption. constructor; assumption.
Qed.

Lemma Substituted_replace (s r old new : string) :
old ≠ "" → Substituted old new s r → r = Py.replace s old new.
Proof.
intros Hold. induction 1 as [|rest r _ IH|c s r Hmiss _ IH].
- symmetry. apply replace_nil, Hold.
- rewrite replace_hit by exact Hold. congruence.
- rewrite replace_miss by assumption. congruence.
Qed.

End SubstitutedFacts.

(** ** Dictionaries *)

Section DictFacts.
Context {V : Type}.
Implicit Types (d : PyDict.dict V) (k : string) (v : V).

Lemma get_setitem d k v k' :
  PyDict.get (PyDict.setitem d k v) k' =
  if String.eqb k k' then Some v else PyDict.get d k'.
Proof.
  induction d as [|[k0 v0] d IH]; simpl.
  - reflexivity.
  - destruct (String.eqb k0 k) eqn:E0; simpl.
    + apply String.eqb_eq in E0. subst k0. destruct (String.eqb k k'); reflexivity.
    + rewrite IH. destruct (String.eqb k0 k') eqn:E1; [|reflexivity].
      apply String.eqb_eq in E1. subst k0. rewrite String.eqb_sym, E0. reflexivity.
Qed.

Lemma in_keys_get d k : In k (PyDict.keys d) ↔ PyDict.get d k ≠ None.
Proof.
  induction d as [|[k0 v0] d IH]; simpl.
  - split; [tauto | congruence].
  - destruct (String.eqb k0 k) eqn:E.
    + apply String.eqb_eq in E. split; [congruence | auto].
    + apply String.eqb_neq in E. rewrite IH. split; [intros [?|?]; tauto | auto].
Qed.

Lemma keys_setitem d k v :
  PyDict.keys (PyDict.setitem d k v) =
  if PyDict.contains d k then PyDict.keys d else PyDict.keys d ++ [k].
Proof.
  unfold PyDict.contains.
  induction d as [|[k0 v0] d IH]; simpl.
  - reflexivity.
  - destruct (String.eqb k0 k) eqn:E; simpl; [reflexivity|].
    rewrite IH. destruct (PyDict.get d k); reflexivity.
Qed.

Lemma NoDup_keys_setitem d k v :
  NoDup (PyDict.keys d) → NoDup (PyDict.keys (PyDict.setitem d k v)).
Proof.
  intros H. rewrite keys_setitem. unfold PyDict.contains.
  destruct (PyDict.get d k) eqn:E; [exact H|].
  apply NoDup_app. repeat split.
  - exact H.
  - intros x Hx ->%list_elem_of_singleton.
    apply list_elem_of_In, in_keys_get in Hx. congruence.
  - apply NoDup_singleton.
Qed.
End DictFacts.

(** ** Flat pairing *)

Section PairingFacts.
Variable key : string → string.

Lemma get_keyed (l : list string) (d : PyDict.dict string) (k : string) :
  PyDict.get (keyed key l d) k =
  match last_with_key key l k with
  | Some t => Some t
  | None => PyDict.get d k
  end.
Proof.
  revert d. induction l as [|x l IH]; intros d; simpl.
  - reflexivity.
  - unfold keyed in IH |- *. simpl. rewrite IH, get_setitem.
    destruct (last_with_key key l k); [reflexivity|].
    destruct (String.eqb (key x) k); reflexivity.
Qed.

Lemma NoDup_keys_keyed (l : list string) (d : PyDict.dict string) :
  NoDup (PyDict.keys d) → NoDup (PyDict.keys (keyed key l d)).
Proof.
  revert d. induction l as [|x l IH]; intros d H; simpl.
  - exact H.
  - apply IH, NoDup_keys_setitem, H.
Qed.

Lemma last_with_key_None (l : list string) (k : string) :
  last_with_key key l k = None ↔ Forall (λ e, key e ≠ k) l.
Proof.
  induction l as [|x l IH]; simpl.
  - split; [constructor | reflexivity].
  - destruct (last_with_key key l k) eqn:E.
    + split; [discriminate|]. intros H. inversion H; subst.
      apply IH in H3. discriminate.
    + destruct (String.eqb (key x) k) eqn:Ex.
      * apply String.eqb_eq in Ex. split; [discriminate|].
        intros H. inversion H; subst. congruence.
      * apply String.eqb_neq in Ex. split; [|reflexivity].
        intros _. constructor; [exact Ex | apply IH; reflexivity].
Qed.

(** The computed last entry is the last entry. *)
Lemma last_with_key_spec (l : list string) (k t : string) :
  last_with_key key l k = Some t ↔ is_last_with_key key l k t.
Proof.
  unfold is_last_with_key. induction l as [|x l IH]; simpl.
  - split; [discriminate|]. intros (l1 & l2 & H & _). destruct l1; discriminate.
  - destruct (last_with_key key l k) as [t'|] eqn:E.
    + split.
      * intros [= ->]. destruct (proj1 IH eq_refl) as (l1 & l2 & -> & Hk & Hl2).
        exists (x :: l1), l2. auto.
      * intros (l1 & l2 & H & Hk & Hl2). destruct l1 as [|y l1]; simpl in H.
        -- injection H as -> ->. apply last_with_key_None in Hl2. congruence.
        -- injection H as -> ->. apply IH. eauto.
    + apply last_with_key_None in E. split.
      * destruct (String.eqb (key x) k) eqn:Ex; [|discriminate].
        intros [= ->]. apply String.eqb_eq in Ex. exists [], l. auto.
      * intros (l1 & l2 & H & Hk & Hl2). destruct l1 as [|y l1]; simpl in H.
        -- injection H as -> ->. subst k. rewrite String.eqb_refl. reflexivity.
        -- injection H as -> ->. apply Forall_app in E as [_ E].
           inversion E; subst. congruence.
Qed.

Lemma last_with_key_In (l : list string) (k t : string) :
  last_with_key key l k = Some t → In t l ∧ key t = k.
Proof.
  intros (l1 & l2 & -> & Hk & _)%last_with_key_spec. split; [|exact Hk].
  apply in_or_app. right. left. reflexivity.
Qed.

Lemma last_with_key_present (l : list string) (t : string) :
  In t l → ∃ t', last_with_key key l (key t) = Some t'.
Proof.
  intros H. destruct (last_with_key key l (key t)) eqn:E; [eauto|].
  apply last_with_key_None in E. rewrite List.Forall_forall in E.
  destruct (E t H). reflexivity.
Qed.

Lemma third_loop (d_text d_audio : PyDict.dict string) (ks : list string)
    (acc : list (string * string * string)) :
  fold_left (λ tasks k,
    if PyDict.contains d_audio k then
      match PyDict.get d_text k, PyDict.get d_audio k with
      | Some t, Some a => tasks ++ [(k, t, a)]
      | _, _ => tasks
      end
    else tasks) ks acc
  = acc ++ flat_map (emitted d_text d_audio) ks.
Proof.
  revert acc. induction ks as [|k ks IH]; intros acc; simpl.
  - rewrite app_nil_r. reflexivity.
  - rewrite IH. unfold emitted at 2, PyDict.contains.
    destruct (PyDict.get d_audio k), (PyDict.get d_text k);
      rewrite <- ?app_assoc; simpl; rewrite ?app_nil_r; reflexivity.
Qed.

Lemma match_files_unfold (text_files audio_files : list string) :
  _match_files_flat_hierarchy key text_files audio_files =
  flat_map (emitted (keyed key text_files []) (keyed key audio_files []))
    (PyDict.keys (keyed key text_files [])).
Proof. unfold _match_files_flat_hierarchy. rewrite third_loop. reflexivity. Qed.

Lemma in_emitted (d_text d_audio : PyDict.dict string) (ks : list string)
    (k t a : string) :
  In (k, t, a) (flat_map (emitted d_text d_audio) ks) ↔
  In k ks ∧ PyDict.get d_text k = Some t ∧ PyDict.get d_audio k = Some a.
Proof.
  rewrite in_flat_map. unfold emitted. split.
  - intros (k' & Hk & H).
    destruct (PyDict.get d_text k') eqn:Et, (PyDict.get d_audio k') eqn:Ea;
      simpl in H; try tauto.
    destruct H as [[= -> -> ->]|[]]. auto.
  - intros (Hk & Ht & Ha). exists k. rewrite Ht, Ha.
    split; [exact Hk | left; reflexivity].
Qed.

Lemma keys_of_emitted (d_text d_audio : PyDict.dict string) (ks : list string) :
  NoDup ks →
  NoDup (map (λ x, x.1.1) (flat_map (emitted d_text d_audio) ks)).
Proof.
  induction 1 as [|k ks Hk Hks IH]; simpl.
  - constructor.
  - rewrite map_app. unfold emitted at 1.
    destruct (PyDict.get d_text k), (PyDict.get d_audio k); simpl; try exact IH.
    constructor; [|exact IH].
    intros Hin%list_elem_of_In. apply in_map_iff in Hin as ([[k' t'] a'] & Heq & Hin).
    simpl in Heq. subst k'.
    apply in_emitted in Hin as [Hin _]. apply Hk, list_elem_of_In, Hin.
Qed.

(** Which triples flat pairing emits. *)
Lemma in_match_files (text_files audio_files : list string) (k t a : string) :
  In (k, t, a) (_match_files_flat_hierarchy key text_files audio_files) ↔
  last_with_key key text_files k = Some t ∧
  last_with_key key audio_files k = Some a.
Proof.
  rewrite match_files_unfold, in_emitted, !get_keyed. simpl.
  rewrite in_keys_get, get_keyed. simpl.
  destruct (last_with_key key text_files k), (last_with_key key audio_files k);
    split; intros H; try tauto; try (destruct H as (? & ? & ?); auto; congruence);
    try (destruct H as [? ?]; congruence).
  destruct H as [H1 H2]. split; [congruence | auto].
Qed.

Lemma NoDup_match_files (text_files audio_files : list string) :
  NoDup (map (λ x, x.1.1)
    (_match_files_flat_hierarchy key text_files audio_files)).
Proof.
  rewrite match_files_unfold. apply keys_of_emitted, NoDup_keys_keyed. constructor.
Qed.





End PairingFacts.

(** ** Sorting, the Entry Filter and the Paged Directory Matcher *)

Section FilterFacts.

Lemma sorted_Permutation (l : list string) : Permutation (Py.sorted l) l.
Proof. apply merge_sort_Permutation. Qed.

Lemma sorted_In (l : list string) (x : string) : In x (Py.sorted l) ↔ In x l.
Proof.
  split; apply Permutation_in; [|symmetry]; apply sorted_Permutation.
Qed.

Lemma sorted_Sorted (l : list string) : Sorted String.le (Py.sorted l).
Proof. apply (Sorted_merge_sort String.le). Qed.

Lemma sorted_NoDup (l : list string) : NoDup l → NoDup (Py.sorted l).
Proof. intros H. rewrite sorted_Permutation. exact H. Qed.

Lemma sorted_length (l : list string) : length (Py.sorted l) = length l.
Proof. apply Permutation_length, sorted_Permutation. Qed.

Lemma find_loop (target : string) (regex : Re.regex) (entries acc : list string) :
  fold_left (λ files entry,
    if Py.startswith entry target then
      if Re.re_search regex (Py.slice_from (Py.len target + 1) entry)
      then files ++ [entry] else files
    else files) entries acc
  = acc ++ List.filter (qualifies target regex) entries.
Proof.
  revert acc. induction entries as [|e entries IH]; intros acc; simpl.
  - rewrite app_nil_r. reflexivity.
  - rewrite IH. unfold qualifies at 2.
    destruct (Py.startswith e target); simpl; [|reflexivity].
    destruct (Re.re_search regex _); [|reflexivity].
    rewrite <- app_assoc. reflexivity.
Qed.

Variable norm_join : string → string → string.

Lemma find_files_unfold (entries : list string) (root : string)
    (relative_path : option string) (regex : Re.regex) :
  _find_files norm_join entries root relative_path regex =
  Py.sorted (List.filter (qualifies (target_of norm_join root relative_path) regex) entries).
Proof.
  unfold _find_files. fold (target_of norm_join root relative_path).
  rewrite find_loop. reflexivity.
Qed.

(** What the Entry Filter returns: the entries that start with the target
    as a string and whose text from position [len(target) + 1] on has a
    match of the pattern somewhere, sorted. *)
Lemma find_files_spec (entries : list string) (root : string)
    (relative_path : option string) (regex : Re.regex) :
  let target := target_of norm_join root relative_path in
  let files := _find_files norm_join entries root relative_path regex in
  Sorted String.le files ∧
  ∀ entry, In entry files ↔
    In entry entries ∧ Py.startswith entry target = true ∧
    Re.re_search regex (Py.slice_from (Py.len target + 1) entry) = true.
Proof.
  cbv zeta. rewrite find_files_unfold. split; [apply sorted_Sorted|].
  intros entry. rewrite sorted_In, filter_In. unfold qualifies.
  rewrite andb_true_iff. reflexivity.
Qed.

End FilterFacts.

Section DirectoryFacts.

Lemma directories_loop (root : string) (regex : Re.regex)
    (entries : list string) (acc : gset string) (d : string) :
  d ∈ fold_left (λ (directories : gset string) entry,
        if Py.startswith entry root then
          let entry := Py.slice_from (Py.len root + 1) entry in
          let entry_splitted := Py.split posixpath.sep entry in
          if (2 <=? length entry_splitted)%nat
             && Re.re_match regex (hd "" entry_splitted)
          then directories ∪ {[ hd "" entry_splitted ]}
          else directories
        else directories) entries acc
  ↔ d ∈ acc ∨ ∃ entry, In entry entries ∧ yields root regex entry d.
Proof.
  revert acc. induction entries as [|e entries IH]; intros acc; cbn [fold_left In].
  - split; [auto | intros [H|(e & [] & _)]; exact H].
  - rewrite IH. clear IH. unfold yields. cbv zeta.
    destruct (Py.startswith e root) eqn:Es.
    + match goal with |- context [if ?b then _ else _] => destruct b eqn:Et end.
      * apply andb_true_iff in Et as [E2 Em]. apply Nat.leb_le in E2.
        rewrite elem_of_union, elem_of_singleton. split.
        -- intros [[H| ->]|(e' & Hin & H)]; eauto 7.
           right. exists e. auto 7.
        -- intros [H|(e' & [<-|Hin] & H)]; eauto 7.
           destruct H as (_ & _ & <- & _). auto.
      * split.
        -- intros [H|(e' & Hin & H)]; eauto 7.
        -- intros [H|(e' & [<-|Hin] & H)]; eauto 7.
           destruct H as (_ & H2 & <- & Hm). apply Nat.leb_le in H2.
           rewrite H2, Hm in Et. discriminate.
    + split.
      * intros [H|(e' & Hin & H)]; eauto 7.
      * intros [H|(e' & [<-|Hin] & H)]; eauto 7.
        destruct H as (H & _). congruence.
Qed.

Variable re_compile : string → option Re.regex.

(** What the Paged Directory Matcher returns when the pattern compiles. *)
Lemma match_directories_spec (entries : list string) (root regex_string : string)
    (regex : Re.regex) :
  re_compile regex_string = Some regex →
  ∃ dirs, _match_directories re_compile entries root regex_string = Ok dirs ∧
    Sorted String.le dirs ∧ NoDup dirs ∧
    ∀ d, In d dirs ↔ ∃ entry, In entry entries ∧ yields root regex entry d.
Proof.
  intros Hc. unfold _match_directories. rewrite Hc. eexists. split; [reflexivity|].
  split; [apply sorted_Sorted|]. split; [apply sorted_NoDup, NoDup_elements|].
  intros d. rewrite sorted_In, <- list_elem_of_In, elem_of_elements.
  rewrite directories_loop. split; [intros [H|H]; [set_solver|exact H] | auto].
Qed.

End DirectoryFacts.

(** ** The analysis monad *)

Section MonadFacts.
Context {A B : Type}.

Lemma for_each_nil (body : B → A → M B) (acc : B) (tr : list log_entry) :
  for_each body [] acc tr = (Ok acc, tr).
Proof. reflexivity. Qed.

Lemma for_each_cons_ok (body : B → A → M B) x l acc acc' tr tr' :
  body acc x tr = (Ok acc', tr') →
  for_each body (x :: l) acc tr = for_each body l acc' tr'.
Proof. intros H. cbn [for_each]. munfold. rewrite H. reflexivity. Qed.

(** No loop catches what its body raises. *)
Lemma for_each_cons_raise (body : B → A → M B) x l acc e tr tr' :
  body acc x tr = (Raise e, tr') →
  for_each body (x :: l) acc tr = (Raise e, tr').
Proof. intros H. cbn [for_each]. munfold. rewrite H. reflexivity. Qed.

Lemma bind_ok (m : M A) (f : A → M B) (tr tr' : list log_entry) (b : B) :
  (m ≫= f) tr = (Ok b, tr') →
  ∃ a tr1, m tr = (Ok a, tr1) ∧ f a tr1 = (Ok b, tr').
Proof.
  munfold. destruct (m tr) as [[a|e] tr1]; [eauto | discriminate].
Qed.
End MonadFacts.

(** ** Task construction *)

Section TaskFacts.
Variable norm_join : string → string → string.
Variable config_string_to_dict : string → gmap string string.
Variable Task_init : string → Task.
Variable gc : GlobalConstants.

#[local] Abbreviation create_task := (_create_task norm_join config_string_to_dict Task_init gc).

Lemma create_task_from_task (task_info : string * string * string)
    (config_string root kind l : string) :
  config_string_to_dict config_string !! PPN_TASK_LANGUAGE gc = Some l →
  ∃ task, language (configuration task) = Some l ∧
    ∀ tr, create_task task_info config_string root kind tr = (Ok task, tr).
Proof.
  intros H. destruct task_info as [[i0 i1] i2]. unfold _create_task. munfold.
  rewrite H. eexists. split; [|intros tr; reflexivity]. reflexivity.
Qed.

Lemma create_task_from_job (task_info : string * string * string)
    (config_string root kind l : string) :
  config_string_to_dict config_string !! PPN_TASK_LANGUAGE gc = None →
  config_string_to_dict config_string !! PPN_JOB_LANGUAGE gc = Some l →
  ∃ task, language (configuration task) = Some l ∧
    ∀ tr, create_task task_info config_string root kind tr = (Ok task, tr).
Proof.
  intros H1 H2. destruct task_info as [[i0 i1] i2]. unfold _create_task. munfold.
  rewrite H1, H2. eexists. split; [|intros tr; reflexivity]. reflexivity.
Qed.

Lemma create_task_no_language (task_info : string * string * string)
    (config_string root kind : string) (tr : list log_entry) :
  no_language gc (config_string_to_dict config_string) →
  create_task task_info config_string root kind tr =
  (Raise (KeyError (PPN_JOB_LANGUAGE gc)), tr).
Proof.
  intros [H1 H2]. destruct task_info as [[i0 i1] i2]. unfold _create_task. munfold.
  rewrite H1, H2. reflexivity.
Qed.


Lemma flat_loop_no_language (config_string root kind : string)
    (task_info : string * string * string)
    (rest : list (string * string * string)) (job : Job) (tr : list log_entry) :
  no_language gc (config_string_to_dict config_string) →
  flat_loop norm_join config_string_to_dict Task_init gc config_string root kind
    (task_info :: rest) job tr
  = (Raise (KeyError (PPN_JOB_LANGUAGE gc)), tr).
Proof.
  intros H. unfold flat_loop. apply for_each_cons_raise.
  unfold mbind, M_bind. rewrite create_task_no_language by exact H. reflexivity.
Qed.

Section Paged.
Variables (entries : list string) (tasks_root_directory : string).
Variables (text_file_relative_path : string) (text_file_name_regex : Re.regex).
Variables (audio_file_relative_path : string) (audio_file_name_regex : Re.regex).
Variables (config_string sync_map_root_directory job_os_hierarchy_type : string).

#[local] Abbreviation text_files_in :=
  (text_files_in norm_join entries tasks_root_directory
     text_file_relative_path text_file_name_regex).
#[local] Abbreviation audio_files_in :=
  (audio_files_in norm_join entries tasks_root_directory
     audio_file_relative_path audio_file_name_regex).
#[local] Abbreviation exactly_one :=
  (exactly_one norm_join entries tasks_root_directory
     text_file_relative_path text_file_name_regex
     audio_file_relative_path audio_file_name_regex).
#[local] Abbreviation task_info_of :=
  (task_info_of norm_join entries tasks_root_directory
     text_file_relative_path text_file_name_regex
     audio_file_relative_path audio_file_name_regex).

#[local] Abbreviation body :=
  (paged_body norm_join config_string_to_dict Task_init gc entries
     tasks_root_directory text_file_relative_path text_file_name_regex
     audio_file_relative_path audio_file_name_regex config_string
     sync_map_root_directory job_os_hierarchy_type).

Lemma paged_body_skip (job : Job) (d : string) (tr : list log_entry) :
  exactly_one d = false →
  body job d tr =
  (Ok job, tr ++ [Log (diagnostic (text_files_in d) (audio_files_in d)) d]).
Proof.
  unfold exactly_one, text_files_in, audio_files_in, paged_body, diagnostic.
  intros ->. munfold.
  repeat match goal with |- context [if ?b then _ else _] => destruct b end;
    reflexivity.
Qed.

Lemma paged_body_build (job : Job) (d : string) (tr : list log_entry) :
  exactly_one d = true →
  body job d tr =
  (task ← create_task (task_info_of d) config_string sync_map_root_directory
            job_os_hierarchy_type;
   mret (add_task job task))
    (tr ++ [Log (diagnostic (text_files_in d) (audio_files_in d)) d]).
Proof.
  unfold exactly_one, text_files_in, audio_files_in, paged_body, diagnostic,
    task_info_of.
  intros ->. reflexivity.
Qed.

Lemma paged_body_no_language (job : Job) (d : string) (tr : list log_entry) :
  no_language gc (config_string_to_dict config_string) →
  exactly_one d = true →
  body job d tr =
  (Raise (KeyError (PPN_JOB_LANGUAGE gc)),
   tr ++ [Log (diagnostic (text_files_in d) (audio_files_in d)) d]).
Proof.
  intros Hn Hd. rewrite paged_body_build by exact Hd.
  unfold mbind, M_bind. rewrite create_task_no_language by exact Hn. reflexivity.
Qed.

(** Without a language the paged loop cannot return with a Task added. *)
Lemma paged_loop_no_language (dirs : list string) (job job' : Job)
    (tr tr' : list log_entry) :
  no_language gc (config_string_to_dict config_string) →
  for_each body dirs job tr = (Ok job', tr') →
  job' = job ∧ Forall (λ d, exactly_one d = false) dirs.
Proof.
  intros Hn. revert tr. induction dirs as [|d dirs IH]; intros tr H.
  - injection H as <- _. auto.
  - destruct (exactly_one d) eqn:Ed.
    + rewrite (for_each_cons_raise _ _ _ _ _ _ _
                 (paged_body_no_language job d tr Hn Ed)) in H.
      discriminate.
    + rewrite (for_each_cons_ok _ _ _ _ _ _ _ (paged_body_skip job d tr Ed)) in H.
      apply IH in H as [-> HF]. auto.
Qed.

End Paged.

End TaskFacts.

(** ** The orchestrator *)

Section AnalysisFacts.
Variable norm_join : string → string → string.
Variable file_name_without_extension : string → string.
Variable config_txt_to_string : option string → string.
Variable config_string_to_dict : string → gmap string string.
Variable config_xml_to_dict_job : option string → gmap string string.
Variable config_xml_to_dict_tasks : option string → list (gmap string string).
Variable config_dict_to_string : gmap string string → string.
Variable re_compile : string → option Re.regex.
Variable Task_init : string → Task.
Variable gc : GlobalConstants.

Lemma getitem_ok (d : gmap string string) (k v : string) (tr tr' : list log_entry) :
  getitem d k tr = (Ok v, tr') → d !! k = Some v ∧ tr' = tr.
Proof.
  unfold getitem. destruct (d !! k); munfold; intros [= <- <-]; auto.
Qed.

(** A simple-syntax analysis that returns without a language has built no
    Task. *)
Lemma analyze_txt_no_language (container : Container)
    (config_string : option string) (tr tr' : list log_entry) (job : Job) :
  no_language gc
    (config_string_to_dict (txt_config_string config_txt_to_string container
                              config_string)) →
  _analyze_txt_config norm_join file_name_without_extension config_txt_to_string
    config_string_to_dict re_compile Task_init gc container config_string tr
  = (Ok job, tr') →
  tasks job = [].
Proof.
  intros Hn H. unfold _analyze_txt_config in H.
  set (cfg := txt_config_string config_txt_to_string container config_string) in *.
  assert (Hpair : ∃ config_dir,
    match config_string with
    | Some config_string0 => ("", config_string0)
    | None =>
        (posixpath.dirname (entry_config_txt container),
         config_txt_to_string
           (read_entry container (entry_config_txt container)))
    end = (config_dir, cfg)).
  { subst cfg. destruct config_string; eexists; reflexivity. }
  destruct Hpair as [config_dir Hpair]. cbv zeta in H. rewrite Hpair in H.
  repeat (apply bind_ok in H as (? & ? & ?%getitem_ok & H) ||
          apply bind_ok in H as (? & ? & ? & H)).
  destruct_and?. subst.
  match goal with
  | Hflat : (if ?b then flat_loop _ _ _ _ _ _ _ ?m _ else _) _ = (Ok ?j, _) |- _ =>
      assert (j = Job_init cfg) as Hj;
      [ destruct b;
        [ destruct m;
          [ injection Hflat as <- _; reflexivity
          | rewrite flat_loop_no_language in Hflat by exact Hn; discriminate ]
        | injection Hflat as <- _; reflexivity ]
      | ]
  end.
  subst.
  match goal with H : (if ?b then _ else _) _ = _ |- _ => destruct b end.
  - repeat (apply bind_ok in H as (? & ? & ?%getitem_ok & H) ||
            apply bind_ok in H as (? & ? & ? & H)).
    apply paged_loop_no_language in H as [-> _]; [reflexivity | exact Hn].
  - injection H as <- _. reflexivity.
Qed.

(** A structured analysis returns only when every Task was built. *)
Lemma analyze_xml_no_language (container : Container)
    (config_contents : option string) (tr tr' : list log_entry) (job : Job) :
  let contents := xml_config_contents container config_contents in
  (∀ tp, In tp (config_xml_to_dict_tasks contents) →
     no_language gc (config_string_to_dict (config_dict_to_string tp))) →
  _analyze_xml_config norm_join config_string_to_dict config_xml_to_dict_job
    config_xml_to_dict_tasks config_dict_to_string Task_init gc container
    config_contents tr
  = (Ok job, tr') →
  config_xml_to_dict_tasks contents = [] ∧ tasks job = [].
Proof.
  intros contents Hn H. unfold _analyze_xml_config in H.
  assert (Hpair : ∃ config_dir,
    match config_contents with
    | Some config_contents0 => ("", Some config_contents0)
    | None =>
        (posixpath.dirname (entry_config_xml container),
         read_entry container (entry_config_xml container))
    end = (config_dir, contents)).
  { subst contents. destruct config_contents; eexists; reflexivity. }
  destruct Hpair as [config_dir Hpair]. cbv zeta in H. rewrite Hpair in H.
  repeat (apply bind_ok in H as (? & ? & ?%getitem_ok & H)).
  destruct_and?. subst.
  destruct (config_xml_to_dict_tasks contents) as [|tp tps] eqn:Etp.
  - injection H as <- _. auto.
  - exfalso. cbn [for_each] in H.
    specialize (Hn tp (or_introl eq_refl)).
    apply bind_ok in H as (acc & tr1 & Hbody & _).
    apply bind_ok in Hbody as (text & ? & _ & Hbody).
    apply bind_ok in Hbody as (audio & ? & _ & Hbody).
    apply bind_ok in Hbody as (task & ? & Hc & _).
    rewrite create_task_no_language in Hc by exact Hn. discriminate.
Qed.

(** The structured analysis reads the container through the path of the
    XML entry and the contents of that entry only. *)
Lemma analyze_xml_reads (c c' : Container) :
  entry_config_xml c = entry_config_xml c' →
  read_entry c (entry_config_xml c) = read_entry c' (entry_config_xml c) →
  _analyze_xml_config norm_join config_string_to_dict config_xml_to_dict_job
    config_xml_to_dict_tasks config_dict_to_string Task_init gc c None
  = _analyze_xml_config norm_join config_string_to_dict config_xml_to_dict_job
    config_xml_to_dict_tasks config_dict_to_string Task_init gc c' None.
Proof.
  intros He Hr. unfold _analyze_xml_config. rewrite <- He, <- Hr. reflexivity.
Qed.

End AnalysisFacts.

(** * The claims *)

(** ** Entry Filter *)

(** C1 (code defect).  The docstring of _find_files promises the entries
    that are in root/relative_path, but the test is [entry.startswith(target)]
    and the character after the target is dropped unseen: with target [text]
    the entry [text2/a.txt] is returned next to [text/b.txt], and with root
    [OEBPS] and relative path [Resources] so is [OEBPS/Resources2/a.txt]. *)
Theorem find_files_accepts_string_prefix :
  (∀ norm_join,
     _find_files norm_join ["text2/a.txt"; "text/b.txt"] "text" None Sample.re_txt
     = ["text/b.txt"; "text2/a.txt"]) ∧
  _find_files gf.norm_join ["OEBPS/Resources2/a.txt"; "OEBPS/Resources/b.txt"]
    "OEBPS" (Some "Resources") Sample.re_txt
  = ["OEBPS/Resources/b.txt"; "OEBPS/Resources2/a.txt"].
Proof.
  split.
  - intros norm_join. vm_compute. reflexivity.
  - vm_compute. reflexivity.
Qed.

(** ** Flat Pairer *)

Lemma has_char_app (c : ascii) (a b : string) :
  Py.has_char c (a +:+ b) = Py.has_char c a || Py.has_char c b.
Proof.
  induction a as [|x a IH]; simpl; [reflexivity|].
  rewrite IH. apply orb_assoc.
Qed.

Lemma basename_no_sep (p : string) :
  Py.has_char posixpath.sep (posixpath.basename p) = false.
Proof.
  induction p as [|c p IH]; simpl; [reflexivity|].
  destruct (Py.has_char posixpath.sep p) eqn:E; [exact IH|].
  destruct (Ascii.eqb c posixpath.sep) eqn:Ec; [exact E|].
  simpl. rewrite Ec, E. reflexivity.
Qed.

Lemma basename_join (d n : string) :
  Py.has_char posixpath.sep n = false →
  posixpath.basename (d +:+ "/" +:+ n) = n.
Proof.
  intros Hn. induction d as [|c d IH]; simpl.
  - rewrite Hn. reflexivity.
  - rewrite has_char_app. simpl. rewrite orb_true_r. exact IH.
Qed.

Lemma match_files_singletons (key : string → string) (t a : string) :
  _match_files_flat_hierarchy key [t] [a] =
  if String.eqb (key a) (key t) then [(key t, t, a)] else [].
Proof.
  unfold _match_files_flat_hierarchy, PyDict.contains. simpl.
  rewrite String.eqb_refl. destruct (String.eqb (key a) (key t)); reflexivity.
Qed.

(** C2, as stated, fails: the text entry [a/x.txt] and the audio entry
    [b/x.mp3] of different directories do pair, and the triple for [a/x.txt]
    and [a/x.mp3] has the key [x], not [a/x]. *)
Lemma flat_pairing_pairs_across_directories :
  _match_files_flat_hierarchy gf.file_name_without_extension ["a/x.txt"] ["b/x.mp3"]
  ≠ [] ∧
  _match_files_flat_hierarchy gf.file_name_without_extension ["a/x.txt"] ["a/x.mp3"]
  ≠ [("a/x", "a/x.txt", "a/x.mp3")].
Proof. split; vm_compute; discriminate. Qed.

(** C2, amended.  The pairing key of an entry is its base name (what follows
    the last separator) without its final extension; the directories are not
    part of it.  So a key does not change when the file is put into another
    directory, a text entry and an audio entry pair exactly when their keys
    are equal, [a/x.txt] pairs with [b/x.mp3] as it does with [a/x.mp3], each
    time in exactly one triple with the key [x], and [a/x.txt] does not pair
    with [a/y.mp3]. *)
Theorem flat_pairing_key_drops_directory :
  (∀ d p, gf.file_name_without_extension (d +:+ "/" +:+ posixpath.basename p)
          = gf.file_name_without_extension p) ∧
  (∀ t a,
     _match_files_flat_hierarchy gf.file_name_without_extension [t] [a] =
     if String.eqb (gf.file_name_without_extension a)
                   (gf.file_name_without_extension t)
     then [(gf.file_name_without_extension t, t, a)] else []) ∧
  _match_files_flat_hierarchy gf.file_name_without_extension ["a/x.txt"] ["b/x.mp3"]
  = [("x", "a/x.txt", "b/x.mp3")] ∧
  _match_files_flat_hierarchy gf.file_name_without_extension ["a/x.txt"] ["a/x.mp3"]
  = [("x", "a/x.txt", "a/x.mp3")] ∧
  _match_files_flat_hierarchy gf.file_name_without_extension ["a/x.txt"] ["a/y.mp3"]
  = [].
Proof.
  split; [|split; [|repeat split; vm_compute; reflexivity]].
  - intros d p. unfold gf.file_name_without_extension.
    rewrite basename_join by apply basename_no_sep. reflexivity.
  - intros t a. apply match_files_singletons.
Qed.

(** C7.  Flat pairing emits the triple [(k, t, a)] exactly when [t] is the
    last entry of the text list with key [k] and [a] the last entry of the
    audio list with key [k]; the keys emitted are those that some text entry
    and some audio entry have; no key is emitted twice. *)
Theorem match_files_flat_hierarchy_spec (key : string → string)
    (text_files audio_files : list string) :
  let tasks := _match_files_flat_hierarchy key text_files audio_files in
  (∀ k t a, In (k, t, a) tasks ↔
     is_last_with_key key text_files k t ∧ is_last_with_key key audio_files k a) ∧
  (∀ k, In k (map (λ x, x.1.1) tasks) ↔
     (∃ t, In t text_files ∧ key t = k) ∧ (∃ a, In a audio_files ∧ key a = k)) ∧
  NoDup (map (λ x, x.1.1) tasks).
Proof.
  cbv zeta. split; [|split].
  - intros k t a. rewrite in_match_files, !last_with_key_spec. reflexivity.
  - intros k. rewrite in_map_iff. split.
    + intros ([[k' t] a] & Hk & Hin). simpl in Hk. subst k'.
      apply in_match_files in Hin as [Ht Ha].
      apply last_with_key_In in Ht, Ha. split; eauto.
    + intros [(t & Ht & Hkt) (a & Ha & Hka)].
      destruct (last_with_key_present key text_files t Ht) as [t' Ht'].
      destruct (last_with_key_present key audio_files a Ha) as [a' Ha'].
      exists (k, t', a'). split; [reflexivity|].
      apply in_match_files. split; congruence.
  - apply NoDup_match_files.
Qed.

(** Whatever the key function: of two different text entries with the key
    of an audio entry, the later one is paired. *)
Lemma match_files_last_wins (key : string → string) (t1 t2 a : string) :
  key t1 = key a → key t2 = key a →
  _match_files_flat_hierarchy key [t1; t2] [a] = [(key a, t2, a)].
Proof.
  intros H1 H2. unfold _match_files_flat_hierarchy, PyDict.contains. simpl.
  rewrite H1, H2, !String.eqb_refl. simpl. rewrite !String.eqb_refl. reflexivity.
Qed.




(** ** Paged Directory Matcher *)

(** C3 (code defect).  The comments in _match_directories say `look only
    inside root dir' and `remove common prefix root/', but the test is
    [entry.startswith(root)] and the character after the root is dropped
    unseen: with root [res] the entry [res_old/p1/x.txt], which is not under
    [res/], yields the directory name [old]. *)
Theorem match_directories_accepts_string_prefix :
  _match_directories Sample.re_compile ["res_old/p1/x.txt"; "res/q/a"] "res" "[a-z]+"
  = Ok ["old"; "q"].
Proof. vm_compute. reflexivity. Qed.

(** ** Paged analysis *)




(** ** Task Builder *)

(** C6.  With a placeholder token that is not empty, the sync-map path of a
    Paged output hierarchy is the root joined with the identifier, then
    joined with the file name, with the placeholder occurrences of the
    joined path substituted by the identifier; that of a Flat one is the
    file name joined onto the root with the same substitution. *)
Theorem compute_sync_map_file_path_spec
    (norm_join : string → string → string) (gc : GlobalConstants)
    (root custom_id file_name : string) :
  PPV_OS_TASK_PREFIX gc ≠ "" →
  (∃ path,
     _compute_sync_map_file_path norm_join gc root HierarchyType.PAGED
       custom_id file_name = Some path ∧
     path = Py.replace (norm_join (norm_join root custom_id) file_name)
              (PPV_OS_TASK_PREFIX gc) custom_id ∧
     Substituted (PPV_OS_TASK_PREFIX gc) custom_id
       (norm_join (norm_join root custom_id) file_name) path) ∧
  (∃ path,
     _compute_sync_map_file_path norm_join gc root HierarchyType.FLAT
       custom_id file_name = Some path ∧
     path = Py.replace (norm_join root file_name)
              (PPV_OS_TASK_PREFIX gc) custom_id ∧
     Substituted (PPV_OS_TASK_PREFIX gc) custom_id
       (norm_join root file_name) path).
Proof.
  intros Hph. split; eexists; (split; [reflexivity|]);
    (split; [reflexivity|]); apply replace_Substituted, Hph.
Qed.

Lemma compute_sync_map_file_path_spec_witness :
  _compute_sync_map_file_path gf.norm_join gc.values "out" HierarchyType.PAGED
    "ch01" "$PREFIX.smil" = Some "out/ch01/ch01.smil" ∧
  _compute_sync_map_file_path gf.norm_join gc.values "out" HierarchyType.FLAT
    "ch01" "$PREFIX.smil" = Some "out/ch01.smil".
Proof.
  assert (Hph : PPV_OS_TASK_PREFIX gc.values ≠ "") by (simpl; discriminate).
  destruct (compute_sync_map_file_path_spec gf.norm_join gc.values "out" "ch01"
              "$PREFIX.smil" Hph) as [(p & Hp & Heq & _) (f & Hf & Hfeq & _)].
  split.
  - rewrite Hp, Heq. vm_compute. reflexivity.
  - rewrite Hf, Hfeq. vm_compute. reflexivity.
Defined.

(** ** Placeholder substitution *)

(** Whatever the token, as soon as it has two characters: substituting the
    token without its first character into the token preceded by its first
    character gives the token back. *)
Lemma startswith_len (s t : string) :
  Py.startswith s t = true → (Py.len t ≤ Py.len s)%nat.
Proof.
  revert s. induction t as [|b t IH]; intros [|a s] H; simpl in *;
    try discriminate; try lia.
  destruct (Ascii.eqb a b); [|discriminate]. apply IH in H. unfold Py.len in *. lia.
Qed.

Lemma contains_len (s t : string) :
  Py.contains s t = true → (Py.len t ≤ Py.len s)%nat.
Proof.
  induction s as [|a s IH]; cbn [Py.contains]; intros H.
  - rewrite orb_false_r in H. apply startswith_len, H.
  - apply orb_true_iff in H as [H|H]; [apply startswith_len, H|].
    apply IH in H. unfold Py.len in *. simpl. lia.
Qed.

Lemma startswith_shift (c : ascii) (p : string) :
  Py.startswith (String c p) p = true → String c p = p +:+ String c "".
Proof.
  revert c. induction p as [|d p IH]; intros c H; [reflexivity|].
  cbn [Py.startswith] in H. destruct (Ascii.eqb c d) eqn:E; [|discriminate].
  apply Ascii.eqb_eq in E. subst d. simpl. f_equal. apply IH, H.
Qed.

Lemma replace_rebuilds_token (c : ascii) (rest : string) :
  rest ≠ "" →
  Py.contains rest (String c rest) = false ∧
  Py.replace (String c (String c rest)) (String c rest) rest = String c rest ∧
  Py.replace (String c rest) (String c rest) rest = rest.
Proof.
  intros Hrest.
  assert (Htok : String c rest ≠ "") by discriminate.
  assert (Hself : Py.replace (String c rest) (String c rest) rest = rest).
  { rewrite <- (append_nil_r (String c rest)) at 1.
    rewrite replace_hit, replace_nil by exact Htok. apply append_nil_r. }
  split; [|split; [|exact Hself]].
  - destruct (Py.contains rest (String c rest)) eqn:E; [|reflexivity].
    apply contains_len in E. unfold Py.len in E. simpl in E. lia.
  - destruct (Py.startswith (String c (String c rest)) (String c rest)) eqn:E.
    + pose proof E as E'. cbn [Py.startswith] in E'. rewrite Ascii.eqb_refl in E'.
      apply startswith_shift in E as ->.
      rewrite replace_hit by exact Htok.
      assert (Hone : Py.startswith (String c "") (String c rest) = false).
      { destruct rest; [congruence|]. simpl. destruct (Ascii.eqb c c); reflexivity. }
      rewrite (replace_miss _ _ _ _ Htok Hone), replace_nil by exact Htok.
      symmetry. apply startswith_shift, E'.
    + rewrite replace_miss by assumption. rewrite Hself. reflexivity.
Qed.

(** C9, as stated, fails: the identifier [PREFIX] does not contain the token
    [$PREFIX], yet substituting it into the template [$$PREFIX] gives
    [$PREFIX], which still contains the token and which a second substitution
    changes into [PREFIX]. *)
Lemma replace_placeholder_not_idempotent :
  Py.contains "PREFIX" (PPV_OS_TASK_PREFIX gc.values) = false ∧
  _replace_placeholder gc.values (Some "$$PREFIX") "PREFIX" = Some "$PREFIX" ∧
  Py.contains "$PREFIX" (PPV_OS_TASK_PREFIX gc.values) = true ∧
  _replace_placeholder gc.values (Some "$PREFIX") "PREFIX" ≠ Some "$PREFIX".
Proof. repeat split; vm_compute; discriminate || reflexivity. Qed.

(** C9, amended.  For an identifier that stays clear of the token (neither
    occurs in the other, and no non-empty end of one is a beginning of the
    other) the substituted string contains no token any more and
    substituting again changes nothing; for a string without the token the
    substitution is a no-op whatever the identifier. *)
Theorem replace_placeholder_idempotent_no_overlap (gc : GlobalConstants)
    (template custom_id : string) :
  no_overlap (PPV_OS_TASK_PREFIX gc) custom_id = true →
  ∃ resolved,
    _replace_placeholder gc (Some template) custom_id = Some resolved ∧
    Py.contains resolved (PPV_OS_TASK_PREFIX gc) = false ∧
    _replace_placeholder gc (Some resolved) custom_id = Some resolved ∧
    (∀ other, _replace_placeholder gc (Some resolved) other = Some resolved).
Proof.
  intros Hno. eexists. split; [reflexivity|].
  pose proof (replace_clears template _ _ Hno) as Hnone.
  apply no_overlap_inv in Hno as (Hph & _).
  split; [exact Hnone|]. split.
  - simpl. f_equal. apply replace_absent; assumption.
  - intros other. simpl. f_equal. apply replace_absent; assumption.
Qed.

Lemma replace_placeholder_idempotent_no_overlap_witness :
  _replace_placeholder gc.values (Some "$PREFIX/audio.smil") "ch01"
  = Some "ch01/audio.smil" ∧
  _replace_placeholder gc.values (Some "ch01/audio.smil") "ch01"
  = Some "ch01/audio.smil" ∧
  Py.contains "ch01/audio.smil" (PPV_OS_TASK_PREFIX gc.values) = false.
Proof.
  assert (Hno : no_overlap (PPV_OS_TASK_PREFIX gc.values) "ch01" = true)
    by (vm_compute; reflexivity).
  destruct (replace_placeholder_idempotent_no_overlap gc.values
              "$PREFIX/audio.smil" "ch01" Hno) as (r & Hr & Hnone & Hagain & _).
  assert (Er : r = "ch01/audio.smil").
  { vm_compute in Hr. injection Hr as <-. reflexivity. }
  subst r. auto.
Defined.

(** Identifiers of the usual kind stay clear of the token [$PREFIX], also
    those that share letters with it. *)
Example no_overlap_usual_identifiers :
  forallb (no_overlap (PPV_OS_TASK_PREFIX gc.values))
    ["ch01"; "PAGE001"; "EPUB"; "Fig1"; "PREFACE"; "a$b"] = true.
Proof. vm_compute. reflexivity. Qed.

(** Each of the four parts of [no_overlap] is needed.  For the token
    [$PREFIX], an identifier that fails one part only and a template whose
    substituted string still contains the token: the identifier contains the
    token; the token contains the identifier; an end of the token begins the
    identifier; an end of the identifier begins the token. *)
Example no_overlap_parts_needed :
  let token := PPV_OS_TASK_PREFIX gc.values in
  let part1 custom_id := negb (Py.contains custom_id token) in
  let part2 custom_id := negb (Py.contains token custom_id) in
  let part3 custom_id := negb (overlaps token custom_id) in
  let part4 custom_id := negb (overlaps custom_id token) in
  let parts custom_id :=
    [part1 custom_id; part2 custom_id; part3 custom_id; part4 custom_id] in
  let resolved template custom_id :=
    default "" (_replace_placeholder gc.values (Some template) custom_id) in
  let token_left template custom_id :=
    Py.contains (resolved template custom_id) token in
  (parts "a$PREFIXb" = [false; true; true; true] ∧
   resolved "$PREFIX" "a$PREFIXb" = "a$PREFIXb" ∧
   token_left "$PREFIX" "a$PREFIXb" = true) ∧
  (parts "RE" = [true; false; true; true] ∧
   resolved "$P$PREFIXFIX" "RE" = "$PREFIX" ∧
   token_left "$P$PREFIXFIX" "RE" = true) ∧
  (parts "FIXa" = [true; true; false; true] ∧
   resolved "$PRE$PREFIX" "FIXa" = "$PREFIXa" ∧
   token_left "$PRE$PREFIX" "FIXa" = true) ∧
  (parts "a$PR" = [true; true; true; false] ∧
   resolved "$PREFIXEFIX" "a$PR" = "a$PREFIX" ∧
   token_left "$PREFIXEFIX" "a$PR" = true).
Proof. vm_compute. repeat split. Qed.

(** ** Choice of the configuration *)

(** C10.  A container that reports the structured configuration is analyzed
    through _analyze_xml_config, whatever it reports about the simple one;
    the result depends on the container only through the path of the XML
    entry and the contents of that entry, so neither the presence, the path
    nor the contents of a simple configuration, nor the entry list, has any
    part in it. *)
Theorem analyze_prefers_xml
    (norm_join : string → string → string)
    (file_name_without_extension : string → string)
    (config_txt_to_string : option string → string)
    (config_string_to_dict : string → gmap string string)
    (config_xml_to_dict_job : option string → gmap string string)
    (config_xml_to_dict_tasks : option string → list (gmap string string))
    (config_dict_to_string : gmap string string → string)
    (re_compile : string → option Re.regex)
    (Task_init : string → Task) (gc : GlobalConstants)
    (c c' : Container) (tr : list log_entry) :
  has_config_xml c = true → has_config_xml c' = true →
  entry_config_xml c = entry_config_xml c' →
  read_entry c (entry_config_xml c) = read_entry c' (entry_config_xml c) →
  let analyze :=
    analyze norm_join file_name_without_extension config_txt_to_string
      config_string_to_dict config_xml_to_dict_job config_xml_to_dict_tasks
      config_dict_to_string re_compile Task_init gc in
  analyze c tr =
    (job ← _analyze_xml_config norm_join config_string_to_dict
              config_xml_to_dict_job config_xml_to_dict_tasks
              config_dict_to_string Task_init gc c None;
     mret (Some job)) tr ∧
  analyze c tr = analyze c' tr.
Proof.
  intros Hc Hc' He Hr. cbv zeta. unfold analyze. rewrite Hc, Hc'.
  split; [reflexivity|].
  rewrite (analyze_xml_reads norm_join config_string_to_dict
             config_xml_to_dict_job config_xml_to_dict_tasks
             config_dict_to_string Task_init gc c c' He Hr).
  reflexivity.
Qed.

Lemma analyze_prefers_xml_witness :
  analyze gf.norm_join gf.file_name_without_extension Sample.config_txt_to_string
    Sample.config_string_to_dict Sample.config_xml_to_dict_job
    Sample.config_xml_to_dict_tasks Sample.config_dict_to_string
    Sample.re_compile Sample.Task_init gc.values Sample.both_configs []
  = analyze gf.norm_join gf.file_name_without_extension Sample.config_txt_to_string
      Sample.config_string_to_dict Sample.config_xml_to_dict_job
      Sample.config_xml_to_dict_tasks Sample.config_dict_to_string
      Sample.re_compile Sample.Task_init gc.values Sample.xml_only [].
Proof.
  apply (analyze_prefers_xml gf.norm_join gf.file_name_without_extension
           Sample.config_txt_to_string Sample.config_string_to_dict
           Sample.config_xml_to_dict_job Sample.config_xml_to_dict_tasks
           Sample.config_dict_to_string Sample.re_compile Sample.Task_init
           gc.values Sample.both_configs Sample.xml_only []);
    reflexivity.
Defined.

(** * Further properties *)

(** ** Entry Filter *)

Lemma filter_Permutation_bool {A} (f : A → bool) (l l' : list A) :
  Permutation l l' → Permutation (List.filter f l) (List.filter f l').
Proof.
  induction 1 as [|x l l' _ IH|x y l|l l' l'' _ IH1 _ IH2]; simpl.
  - constructor.
  - destruct (f x); [constructor|]; exact IH.
  - destruct (f x), (f y); try reflexivity. apply perm_swap.
  - etransitivity; eassumption.
Qed.

Lemma sorted_unique (l l' : list string) :
  Permutation l l' → Py.sorted l = Py.sorted l'.
Proof.
  intros HP. apply (Sorted_unique String.le); try apply sorted_Sorted.
  rewrite !sorted_Permutation. exact HP.
Qed.

Lemma startswith_refl (s : string) : Py.startswith s s = true.
Proof. induction s as [|c s IH]; simpl; [reflexivity|]. rewrite Ascii.eqb_refl. exact IH. Qed.

Lemma slice_from_past (n : nat) (s : string) :
  (Py.len s ≤ n)%nat → Py.slice_from n s = "".
Proof.
  revert s. induction n as [|n IH]; intros [|c s] H; simpl; try reflexivity.
  - unfold Py.len in H. simpl in H. lia.
  - apply IH. unfold Py.len in *. simpl in H. lia.
Qed.

(** X1.  _find_files returns the entries that pass its test, each as many
    times as the entry list has it, in sorted order: the result is sorted, is
    a permutation of the qualifying part of the entry list (so a duplicated
    entry stays duplicated and nothing is added), and is never longer than
    the entry list. *)
Theorem find_files_sorted_permutation (norm_join : string → string → string)
    (entries : list string) (root : string) (relative_path : option string)
    (file_name_regex : Re.regex) :
  let target :=
    match relative_path with Some rp => norm_join root rp | None => root end in
  let files := _find_files norm_join entries root relative_path file_name_regex in
  Sorted String.le files ∧
  Permutation files
    (List.filter (λ entry,
       Py.startswith entry target
       && Re.re_search file_name_regex (Py.slice_from (Py.len target + 1) entry))
       entries) ∧
  (length files ≤ length entries)%nat.
Proof.
  cbv zeta. rewrite find_files_unfold. split; [apply sorted_Sorted|].
  split; [apply sorted_Permutation|].
  rewrite sorted_length. apply filter_length_le.
Qed.

(** X2.  The result of _find_files does not depend on the order in which
    the container lists its entries. *)
Theorem find_files_entry_order (norm_join : string → string → string)
    (entries entries' : list string) (root : string)
    (relative_path : option string) (file_name_regex : Re.regex) :
  Permutation entries entries' →
  _find_files norm_join entries root relative_path file_name_regex =
  _find_files norm_join entries' root relative_path file_name_regex.
Proof.
  intros HP. rewrite !find_files_unfold.
  apply sorted_unique, filter_Permutation_bool, HP.
Qed.

Lemma find_files_entry_order_witness :
  _find_files gf.norm_join ["text/b.txt"; "audio/a.mp3"; "text/a.txt"] "text" None
    Sample.re_txt =
  _find_files gf.norm_join ["audio/a.mp3"; "text/b.txt"; "text/a.txt"] "text" None
    Sample.re_txt.
Proof.
  apply (find_files_entry_order gf.norm_join). apply perm_swap.
Defined.

(** X3.  An entry that is the target itself, or the target and one more
    character, has nothing left after the slice [entry[target_len + 1:]]: it
    is returned exactly when the pattern matches the empty string. *)
Theorem find_files_short_entry (norm_join : string → string → string)
    (entries : list string) (root : string) (relative_path : option string)
    (file_name_regex : Re.regex) (entry : string) :
  let target :=
    match relative_path with Some rp => norm_join root rp | None => root end in
  Py.startswith entry target = true →
  (Py.len entry ≤ Py.len target + 1)%nat →
  In entry (_find_files norm_join entries root relative_path file_name_regex) ↔
  In entry entries ∧ Re.nullable file_name_regex = true.
Proof.
  cbv zeta. intros Hs Hl.
  destruct (find_files_spec norm_join entries root relative_path file_name_regex)
    as [_ H].
  rewrite H. unfold target_of. rewrite Hs, slice_from_past by exact Hl.
  simpl. rewrite !orb_false_r. tauto.
Qed.

Lemma find_files_short_entry_witness :
  In "text" (_find_files gf.norm_join ["text"; "text/a.txt"] "text" None
               (Re.Star Re.AnyChar)) ↔
  In "text" ["text"; "text/a.txt"] ∧ Re.nullable (Re.Star Re.AnyChar) = true.
Proof.
  apply (find_files_short_entry gf.norm_join ["text"; "text/a.txt"] "text" None
           (Re.Star Re.AnyChar) "text").
  - reflexivity.
  - vm_compute. lia.
Defined.

(** ** Paged Directory Matcher *)

Lemma split_nonempty (sep : ascii) (s : string) : Py.split sep s ≠ [].
Proof.
  destruct s as [|c s]; simpl; [discriminate|].
  destruct (Ascii.eqb c sep); [discriminate|].
  destruct (Py.split sep s); discriminate.
Qed.

(** A split has a second component exactly when the string has a separator;
    the first component is what comes before the first one. *)
Lemma split_hd_shape (sep : ascii) (s d : string) :
  (2 ≤ length (Py.split sep s))%nat ∧ hd "" (Py.split sep s) = d ↔
  Py.has_char sep d = false ∧ ∃ rest, s = d +:+ String sep rest.
Proof.
  revert d. induction s as [|c s IH]; intros d.
  - simpl. split; [lia|]. intros [_ [rest H]]. destruct d; discriminate.
  - cbn [Py.split]. destruct (Ascii.eqb c sep) eqn:Ec.
    + apply Ascii.eqb_eq in Ec. subst c. simpl. split.
      * intros [_ <-]. split; [reflexivity|]. exists s. reflexivity.
      * intros [Hd [rest H]]. destruct d as [|c' d]; simpl in H.
        -- split; [|reflexivity].
           pose proof (split_nonempty sep s). destruct (Py.split sep s); simpl; [congruence|lia].
        -- injection H as <- _. simpl in Hd. rewrite Ascii.eqb_refl in Hd. discriminate.
    + destruct (Py.split sep s) as [|h t] eqn:Es; [destruct (split_nonempty sep s Es)|].
      simpl. split.
      * intros [Hl <-]. destruct (proj1 (IH h)) as [Hh [rest Hrest]].
        { simpl. split; [lia|reflexivity]. }
        split; [simpl; rewrite Ec; exact Hh|].
        exists rest. simpl. rewrite Hrest. reflexivity.
      * intros [Hd [rest H]]. destruct d as [|c' d]; simpl in H.
        -- injection H as -> _. rewrite Ascii.eqb_refl in Ec. discriminate.
        -- injection H as <- ->. simpl in Hd. rewrite Ec in Hd. simpl in Hd.
           destruct (proj2 (IH d)) as [Hl Hh].
           { split; [exact Hd|]. exists rest. reflexivity. }
           simpl in Hl, Hh. subst h. split; [lia|reflexivity].
Qed.

Lemma slice_from_add (a b : string) (n : nat) :
  Py.slice_from (Py.len a + n) (a +:+ b) = Py.slice_from n b.
Proof. induction a as [|c a IH]; simpl; [reflexivity|exact IH]. Qed.

Lemma slice_from_one (s t : string) :
  t ≠ "" → Py.slice_from 1 s = t ↔ ∃ c, s = String c t.
Proof.
  intros Ht. destruct s as [|c s]; simpl.
  - split; [congruence|]. intros [c H]. discriminate.
  - split; [intros <-; eauto|]. intros [c' [= _ H]]. exact H.
Qed.

(** The entries that make _match_directories accept a name, by their shape. *)
Lemma yields_shape (root : string) (regex : Re.regex) (entry d : string) :
  yields root regex entry d ↔
  Py.has_char posixpath.sep d = false ∧ Re.re_match regex d = true ∧
  ∃ c rest, entry = root +:+ String c (d +:+ "/" +:+ rest).
Proof.
  unfold yields. cbv zeta. split.
  - intros (Hs & Hl & Hh & Hm).
    destruct (proj1 (split_hd_shape posixpath.sep _ d) (conj Hl Hh)) as [Hd [rest Hr]].
    split; [exact Hd|]. split; [exact Hm|].
    apply startswith_inv in Hs. rewrite Hs in Hr. rewrite slice_from_add in Hr.
    apply slice_from_one in Hr as [c Hc]; [|destruct d; discriminate].
    exists c, rest. rewrite Hs, Hc. reflexivity.
  - intros (Hd & Hm & c & rest & ->).
    split; [apply startswith_app|]. rewrite slice_from_add. simpl.
    destruct (proj2 (split_hd_shape posixpath.sep (d +:+ "/" +:+ rest) d)) as [Hl Hh].
    { split; [exact Hd|]. exists rest. reflexivity. }
    auto.
Qed.

(** X4.  When the pattern compiles, _match_directories returns a sorted
    list without repetition of exactly the names [d] such that [d] has no
    separator, the pattern matches at the start of [d], and some entry
    consists of the root, one more character, [d], a separator and anything
    after it: an entry directly in the root gives no name. *)
Theorem match_directories_names (re_compile : string → option Re.regex)
    (entries : list string) (root regex_string : string) (regex : Re.regex) :
  re_compile regex_string = Some regex →
  ∃ dirs,
    _match_directories re_compile entries root regex_string = Ok dirs ∧
    Sorted String.le dirs ∧ NoDup dirs ∧
    ∀ d, In d dirs ↔
      Py.has_char posixpath.sep d = false ∧ Re.re_match regex d = true ∧
      ∃ c rest, In (root +:+ String c (d +:+ "/" +:+ rest)) entries.
Proof.
  intros Hc.
  destruct (match_directories_spec re_compile entries root regex_string regex Hc)
    as (dirs & Hrun & Hs & Hn & Hin).
  exists dirs. split; [exact Hrun|]. split; [exact Hs|]. split; [exact Hn|].
  intros d. rewrite Hin. split.
  - intros (entry & He & Hy). apply yields_shape in Hy as (Hd & Hm & c & rest & ->).
    eauto 6.
  - intros (Hd & Hm & c & rest & He). eexists. split; [exact He|].
    apply yields_shape. eauto 6.
Qed.

Lemma match_directories_names_witness :
  ∃ dirs,
    _match_directories Sample.re_compile ["root/7"; "root/8/bar"] "root" "[0-9]+"
    = Ok dirs ∧
    (In "8" dirs ↔
      Py.has_char posixpath.sep "8" = false ∧
      Re.re_match Sample.re_digits "8" = true ∧
      ∃ c rest, In ("root" +:+ String c ("8" +:+ "/" +:+ rest))
                  ["root/7"; "root/8/bar"]).
Proof.
  destruct (match_directories_names Sample.re_compile ["root/7"; "root/8/bar"]
              "root" "[0-9]+" Sample.re_digits eq_refl) as (dirs & Hrun & _ & _ & Hin).
  exists dirs. split; [exact Hrun | apply Hin].
Defined.

(** X5.  The result of _match_directories depends on the entries only as a
    set: neither their order nor their repetition matters.  A pattern that
    does not compile raises before any entry is looked at. *)
Theorem match_directories_entry_set (re_compile : string → option Re.regex)
    (entries entries' : list string) (root regex_string : string) :
  (∀ entry, In entry entries ↔ In entry entries') →
  _match_directories re_compile entries root regex_string =
  _match_directories re_compile entries' root regex_string ∧
  (re_compile regex_string = None →
   _match_directories re_compile entries root regex_string =
   Raise (ReError regex_string)).
Proof.
  intros Hset. split.
  - destruct (re_compile regex_string) as [regex|] eqn:Hc.
    + destruct (match_directories_spec re_compile entries root regex_string regex Hc)
        as (dirs & -> & Hs & Hn & Hin).
      destruct (match_directories_spec re_compile entries' root regex_string regex Hc)
        as (dirs' & -> & Hs' & Hn' & Hin').
      f_equal. apply (Sorted_unique String.le); [assumption..|].
      apply NoDup_Permutation; [assumption..|].
      intros d. rewrite !list_elem_of_In, Hin, Hin'.
      split; intros (e & He & Hy); exists e; (split; [apply Hset, He | exact Hy]).
    + unfold _match_directories. rewrite Hc. reflexivity.
  - intros Hc. unfold _match_directories. rewrite Hc. reflexivity.
Qed.

Lemma match_directories_entry_set_witness :
  _match_directories Sample.re_compile ["p/2/a"; "p/1/a"; "p/2/b"] "p" "[0-9]+" =
  _match_directories Sample.re_compile ["p/1/a"; "p/2/b"; "p/2/a"; "p/1/a"] "p" "[0-9]+".
Proof.
  apply (match_directories_entry_set Sample.re_compile
           ["p/2/a"; "p/1/a"; "p/2/b"] ["p/1/a"; "p/2/b"; "p/2/a"; "p/1/a"]).
  intros entry. simpl. tauto.
Defined.

(** ** Flat Pairer *)

Lemma NoDup_map_factor {A B C} (f : A → B) (g : A → C) (h : B → C) (l : list A) :
  (∀ x, In x l → g x = h (f x)) → NoDup (map g l) → NoDup (map f l).
Proof.
  induction l as [|x l IH]; intros Hg Hn; simpl in *; [constructor|].
  apply NoDup_cons in Hn as [Hx Hn]. apply NoDup_cons. split.
  - intros Hin. apply Hx. apply list_elem_of_In, in_map_iff in Hin as (y & Hy & Hin).
    apply list_elem_of_In, in_map_iff. exists y. split; [|exact Hin].
    rewrite (Hg x), (Hg y) by auto. congruence.
  - apply IH; auto.
Qed.

Lemma NoDup_incl_length_map {A B} (f : A → B) (l : list A) (k : list B) :
  NoDup (map f l) → (∀ x, In x l → In (f x) k) → (length l ≤ length k)%nat.
Proof.
  intros Hn Hin. rewrite <- (length_map f l).
  apply List.NoDup_incl_length; [apply NoDup_ListNoDup, Hn|].
  intros y (x & <- & Hx)%in_map_iff. auto.
Qed.

(** X6.  Flat pairing uses no file twice: no text path and no audio path
    occurs in two of the emitted triples, every triple joins a text entry
    and an audio entry of the input lists that both have the triple's key,
    and there are at most as many triples as text entries and as audio
    entries; in particular an empty list on either side gives none. *)
Theorem match_files_no_file_twice (key : string → string)
    (text_files audio_files : list string) :
  let tasks := _match_files_flat_hierarchy key text_files audio_files in
  NoDup (map (λ x, x.1.2) tasks) ∧ NoDup (map (λ x, x.2) tasks) ∧
  (∀ k t a, In (k, t, a) tasks →
     In t text_files ∧ In a audio_files ∧ key t = k ∧ key a = k) ∧
  (length tasks ≤ length text_files)%nat ∧
  (length tasks ≤ length audio_files)%nat.
Proof.
  cbv zeta.
  assert (Hin : ∀ k t a,
    In (k, t, a) (_match_files_flat_hierarchy key text_files audio_files) →
    In t text_files ∧ In a audio_files ∧ key t = k ∧ key a = k).
  { intros k t a [Ht Ha]%in_match_files.
    apply last_with_key_In in Ht as [? ?], Ha as [? ?]. auto. }
  assert (Ht : NoDup (map (λ x, x.1.2)
                 (_match_files_flat_hierarchy key text_files audio_files))).
  { apply (NoDup_map_factor _ (λ x, x.1.1) key); [|apply NoDup_match_files].
    intros [[k t] a] H. apply Hin in H as (_ & _ & <- & _). reflexivity. }
  assert (Ha : NoDup (map (λ x : string * string * string, x.2)
                 (_match_files_flat_hierarchy key text_files audio_files))).
  { apply (NoDup_map_factor _ (λ x, x.1.1) key); [|apply NoDup_match_files].
    intros [[k t] a] H. apply Hin in H as (_ & _ & _ & <-). reflexivity. }
  split; [exact Ht|]. split; [exact Ha|]. split; [exact Hin|]. split.
  - apply (NoDup_incl_length_map _ _ _ Ht). intros [[k t] a] H. apply (Hin k t a H).
  - apply (NoDup_incl_length_map _ _ _ Ha). intros [[k t] a] H. apply (Hin k t a H).
Qed.

(** ** Output paths *)

Lemma intersperse_empty (s : string) : Py.intersperse "" s = s.
Proof. induction s as [|c s IH]; simpl; congruence. Qed.

Lemma replace_same (s old : string) : Py.replace s old old = s.
Proof.
  destruct (String.eqb old "") eqn:E.
  - apply String.eqb_eq in E. subst old. apply intersperse_empty.
  - apply String.eqb_neq in E.
    induction s as [|rest IH|c s Hmiss IH] using (replace_scan_ind old E).
    + apply replace_nil, E.
    + rewrite replace_hit by exact E. congruence.
    + rewrite replace_miss by assumption. congruence.
Qed.

(** X7.  A hierarchy type that is not the Paged constant, whatever else it
    is, gives the path of the flat case: the file name joined onto the root,
    with the placeholder substituted.  The path is never [None], and an
    identifier equal to the placeholder token leaves the joined path as it
    is. *)
Theorem compute_sync_map_file_path_other_kind
    (norm_join : string → string → string) (gc : GlobalConstants)
    (root hierarchy_type custom_id file_name : string) :
  hierarchy_type ≠ HierarchyType.PAGED →
  _compute_sync_map_file_path norm_join gc root hierarchy_type custom_id file_name
  = Some (Py.replace (norm_join root file_name) (PPV_OS_TASK_PREFIX gc) custom_id) ∧
  _compute_sync_map_file_path norm_join gc root hierarchy_type
    (PPV_OS_TASK_PREFIX gc) file_name
  = Some (norm_join root file_name).
Proof.
  intros Hk. apply String.eqb_neq in Hk. unfold _compute_sync_map_file_path.
  rewrite Hk. simpl. rewrite replace_same. auto.
Qed.

Lemma compute_sync_map_file_path_other_kind_witness :
  _compute_sync_map_file_path gf.norm_join gc.values "out" "PAGED" "ch01"
    "$PREFIX.smil" = Some "out/ch01.smil".
Proof.
  assert (H : "PAGED" ≠ HierarchyType.PAGED) by discriminate.
  destruct (compute_sync_map_file_path_other_kind gf.norm_join gc.values "out"
              "PAGED" "ch01" "$PREFIX.smil" H) as [-> _].
  vm_compute. reflexivity.
Defined.

(** ** Task construction and the loops *)

Section LoopFacts.
Variable norm_join : string → string → string.
Variable config_string_to_dict : string → gmap string string.
Variable Task_init : string → Task.
Variable gc : GlobalConstants.
Variables (config_string root kind : string).

#[local] Abbreviation create :=
  (_create_task norm_join config_string_to_dict Task_init gc).
#[local] Abbreviation built :=
  (built_for norm_join Task_init gc config_string root kind).

Lemma create_task_ok (task_info : string * string * string) (task : Task)
    (tr tr' : list log_entry) :
  create task_info config_string root kind tr = (Ok task, tr') →
  tr' = tr ∧ built task_info task ∧
  (is_Some (config_string_to_dict config_string !! PPN_TASK_LANGUAGE gc)
   ∨ is_Some (config_string_to_dict config_string !! PPN_JOB_LANGUAGE gc)).
Proof.
  destruct task_info as [[i0 i1] i2]. unfold _create_task, built_for. munfold.
  destruct (config_string_to_dict config_string !! PPN_TASK_LANGUAGE gc) eqn:Et.
  - intros [= <- <-]. simpl. eauto 10.
  - destruct (config_string_to_dict config_string !! PPN_JOB_LANGUAGE gc) eqn:Ej.
    + intros [= <- <-]. simpl. eauto 10.
    + discriminate.
Qed.

Lemma create_task_raise (task_info : string * string * string) (e : exn)
    (tr tr' : list log_entry) :
  create task_info config_string root kind tr = (Raise e, tr') →
  tr' = tr ∧ e = KeyError (PPN_JOB_LANGUAGE gc) ∧
  no_language gc (config_string_to_dict config_string).
Proof.
  destruct task_info as [[i0 i1] i2]. unfold _create_task, no_language. munfold.
  destruct (config_string_to_dict config_string !! PPN_TASK_LANGUAGE gc) eqn:Et.
  - discriminate.
  - destruct (config_string_to_dict config_string !! PPN_JOB_LANGUAGE gc) eqn:Ej.
    + discriminate.
    + intros [= <- <-]. auto.
Qed.

(** The flat loop, whatever it returns. *)
Lemma flat_loop_cases (matched : list (string * string * string)) (job : Job)
    (tr : list log_entry) :
  (∃ new,
     flat_loop norm_join config_string_to_dict Task_init gc config_string root kind
       matched job tr
     = (Ok {| job_config_string := job_config_string job;
              tasks := tasks job ++ new |}, tr) ∧
     Forall2 built matched new) ∨
  (matched ≠ [] ∧ no_language gc (config_string_to_dict config_string) ∧
   flat_loop norm_join config_string_to_dict Task_init gc config_string root kind
     matched job tr
   = (Raise (KeyError (PPN_JOB_LANGUAGE gc)), tr)).
Proof.
  revert job. induction matched as [|info matched IH]; intros job.
  - left. exists []. rewrite app_nil_r. destruct job. split; [reflexivity|constructor].
  - unfold flat_loop in *.
    destruct (create info config_string root kind tr) as [[task|e] tr1] eqn:Ec.
    + apply create_task_ok in Ec as Hc. destruct Hc as (-> & Hb & Hl).
      assert (Hbody :
        (task ← create info config_string root kind; mret (add_task job task)) tr
        = (Ok (add_task job task), tr)).
      { unfold mbind, M_bind. rewrite Ec. reflexivity. }
      rewrite (for_each_cons_ok _ _ _ _ _ _ _ Hbody).
      destruct (IH (add_task job task)) as [(new & Hrun & Hnew)|(Hne & Hn & Hrun)].
      * left. exists (task :: new). split; [|constructor; assumption].
        rewrite Hrun. simpl. rewrite <- app_assoc. reflexivity.
      * destruct Hl as [[l Hl]|[l Hl]]; destruct Hn; congruence.
    + apply create_task_raise in Ec as Hc. destruct Hc as (-> & -> & Hn).
      right. split; [discriminate|]. split; [exact Hn|].
      apply for_each_cons_raise. unfold mbind, M_bind. rewrite Ec. reflexivity.
Qed.

End LoopFacts.

Section PagedLoopFacts.
Variable norm_join : string → string → string.
Variable config_string_to_dict : string → gmap string string.
Variable Task_init : string → Task.
Variable gc : GlobalConstants.
Variables (entries : list string) (tasks_root_directory : string).
Variables (text_file_relative_path : string) (text_file_name_regex : Re.regex).
Variables (audio_file_relative_path : string) (audio_file_name_regex : Re.regex).
Variables (config_string root kind : string).

#[local] Abbreviation pcreate :=
  (_create_task norm_join config_string_to_dict Task_init gc).
#[local] Abbreviation pbuilt :=
  (built_for norm_join Task_init gc config_string root kind).
#[local] Abbreviation texts_in :=
  (text_files_in norm_join entries tasks_root_directory
     text_file_relative_path text_file_name_regex).
#[local] Abbreviation audios_in :=
  (audio_files_in norm_join entries tasks_root_directory
     audio_file_relative_path audio_file_name_regex).
#[local] Abbreviation one_of_each :=
  (exactly_one norm_join entries tasks_root_directory
     text_file_relative_path text_file_name_regex
     audio_file_relative_path audio_file_name_regex).
#[local] Abbreviation info_of :=
  (task_info_of norm_join entries tasks_root_directory
     text_file_relative_path text_file_name_regex
     audio_file_relative_path audio_file_name_regex).
#[local] Abbreviation pbody :=
  (paged_body norm_join config_string_to_dict Task_init gc entries
     tasks_root_directory text_file_relative_path text_file_name_regex
     audio_file_relative_path audio_file_name_regex config_string root kind).

(** The paged loop, whatever it returns. *)
Lemma paged_loop_cases (dirs : list string) (job : Job) (tr : list log_entry) :
  (∃ new,
     for_each pbody dirs job tr
     = (Ok {| job_config_string := job_config_string job;
              tasks := tasks job ++ new |},
        tr ++ map (λ d, Log (diagnostic (texts_in d) (audios_in d)) d) dirs) ∧
     Forall2 (λ d task, pbuilt (info_of d) task)
       (List.filter one_of_each dirs) new) ∨
  (no_language gc (config_string_to_dict config_string) ∧
   List.filter one_of_each dirs ≠ [] ∧
   ∃ tr', for_each pbody dirs job tr = (Raise (KeyError (PPN_JOB_LANGUAGE gc)), tr')).
Proof.
  revert job tr. induction dirs as [|d dirs IH]; intros job tr.
  - left. exists []. simpl. rewrite !app_nil_r. destruct job.
    split; [reflexivity|constructor].
  - cbn [List.filter map]. destruct (one_of_each d) eqn:Ed.
    + pose proof (paged_body_build norm_join config_string_to_dict Task_init gc
                    entries tasks_root_directory text_file_relative_path
                    text_file_name_regex audio_file_relative_path
                    audio_file_name_regex config_string root kind job d tr Ed)
        as Hb.
      set (tr1 := tr ++ [Log (diagnostic (texts_in d) (audios_in d)) d]) in *.
      destruct (pcreate (info_of d) config_string root kind tr1)
        as [[task|e] tr2] eqn:Ec.
      * apply create_task_ok in Ec as Hc. destruct Hc as (-> & Hbt & Hl).
        unfold mbind, M_bind in Hb. rewrite Ec in Hb.
        rewrite (for_each_cons_ok _ _ _ _ _ _ _ Hb).
        destruct (IH (add_task job task) tr1) as [(new & Hrun & Hnew)|(Hn & _)].
        -- left. exists (task :: new). split; [|constructor; assumption].
           rewrite Hrun. subst tr1. simpl. rewrite <- !app_assoc. reflexivity.
        -- destruct Hl as [[l Hl]|[l Hl]]; destruct Hn; congruence.
      * apply create_task_raise in Ec as Hc. destruct Hc as (-> & -> & Hn).
        unfold mbind, M_bind in Hb. rewrite Ec in Hb.
        right. split; [exact Hn|]. split; [discriminate|].
        exists tr1. apply for_each_cons_raise, Hb.
    + rewrite (for_each_cons_ok _ _ _ _ _ _ _
                 (paged_body_skip norm_join config_string_to_dict Task_init gc
                    entries tasks_root_directory text_file_relative_path
                    text_file_name_regex audio_file_relative_path
                    audio_file_name_regex config_string root kind job d tr Ed)).
      destruct (IH job (tr ++ [Log (diagnostic (texts_in d) (audios_in d)) d]))
        as [(new & Hrun & Hnew)|(Hn & Hne & tr' & Hrun)].
      * left. exists new. split; [|assumption].
        rewrite Hrun. rewrite <- !app_assoc. reflexivity.
      * right. eauto.
Qed.

End PagedLoopFacts.

(** ** The simple analysis as a whole *)

Section TxtFacts.
Variable norm_join : string → string → string.
Variable file_name_without_extension : string → string.
Variable config_txt_to_string : option string → string.
Variable config_string_to_dict : string → gmap string string.
Variable re_compile : string → option Re.regex.
Variable Task_init : string → Task.
Variable gc : GlobalConstants.

#[local] Abbreviation analyze_txt :=
  (_analyze_txt_config norm_join file_name_without_extension config_txt_to_string
     config_string_to_dict re_compile Task_init gc).
#[local] Abbreviation after_prelude :=
  (txt_after_prelude norm_join file_name_without_extension config_string_to_dict
     re_compile Task_init gc).
#[local] Abbreviation cfg_of := (txt_config_string config_txt_to_string).

Lemma txt_pair (container : Container) (config_string : option string) :
  match config_string with
  | Some config_string0 => ("", config_string0)
  | None =>
      (posixpath.dirname (entry_config_txt container),
       config_txt_to_string (read_entry container (entry_config_txt container)))
  end = (txt_config_dir container config_string, cfg_of container config_string).
Proof. destruct config_string; reflexivity. Qed.

(** With the prelude read, the analysis is what comes after it. *)
Lemma analyze_txt_run (container : Container) (config_string : option string)
    (P : txt_prelude gc re_compile
           (config_string_to_dict (cfg_of container config_string)))
    (tr : list log_entry) :
  analyze_txt container config_string tr =
  after_prelude (entries container) (txt_config_dir container config_string)
    (cfg_of container config_string) P tr.
Proof.
  unfold _analyze_txt_config, txt_after_prelude. cbv zeta.
  rewrite txt_pair. destruct P; cbn [is_hierarchy_prefix os_hierarchy_prefix
    os_hierarchy_type text_relative_path text_regex audio_relative_path
    audio_regex is_hierarchy_type].
  munfold. munfold. cbv beta iota.
  repeat (match goal with
          | H : _ !! _ = Some _ |- _ => rewrite H; clear H
          | H : re_compile _ = Some _ |- _ => rewrite H; clear H
          end; cbv beta iota; cbn [from_option]; cbv beta iota).
  reflexivity.
Qed.

Ltac txt_fails :=
  repeat match goal with x := _ |- _ => subst x end;
  right; eexists; split; cycle 1;
  [ unfold _analyze_txt_config; cbv zeta; rewrite txt_pair;
    munfold; munfold; cbv beta iota;
    repeat (match goal with
            | H : _ = Some _ |- _ => rewrite H; clear H
            | H : _ = None |- _ => rewrite H
            end; cbv beta iota; cbn [from_option]; cbv beta iota);
    reflexivity
  | simpl; assumption ].

(** The prelude is read, or the analysis raises an exception that the
    configuration accounts for, the trace being as it was. *)
Lemma analyze_txt_prelude_cases (container : Container)
    (config_string : option string) (tr : list log_entry) :
  (∃ P, analyze_txt container config_string tr =
        after_prelude (entries container) (txt_config_dir container config_string)
          (cfg_of container config_string) P tr) ∨
  (∃ e, accounted_for re_compile
          (config_string_to_dict (cfg_of container config_string)) e ∧
        analyze_txt container config_string tr = (Raise e, tr)).
Proof.
  set (params := config_string_to_dict (cfg_of container config_string)).
  destruct (params !! PPN_JOB_IS_HIERARCHY_PREFIX gc) as [v1|] eqn:E1; [|txt_fails].
  destruct (params !! PPN_JOB_OS_HIERARCHY_PREFIX gc) as [v2|] eqn:E2; [|txt_fails].
  destruct (params !! PPN_JOB_OS_HIERARCHY_TYPE gc) as [v3|] eqn:E3; [|txt_fails].
  destruct (params !! PPN_JOB_IS_TEXT_FILE_RELATIVE_PATH gc) as [v4|] eqn:E4;
    [|txt_fails].
  destruct (params !! PPN_JOB_IS_TEXT_FILE_NAME_REGEX gc) as [v5|] eqn:E5;
    [|txt_fails].
  destruct (re_compile v5) as [r5|] eqn:C5; [|txt_fails].
  destruct (params !! PPN_JOB_IS_AUDIO_FILE_RELATIVE_PATH gc) as [v6|] eqn:E6;
    [|txt_fails].
  destruct (params !! PPN_JOB_IS_AUDIO_FILE_NAME_REGEX gc) as [v7|] eqn:E7;
    [|txt_fails].
  destruct (re_compile v7) as [r7|] eqn:C7; [|txt_fails].
  destruct (params !! PPN_JOB_IS_HIERARCHY_TYPE gc) as [v8|] eqn:E8; [|txt_fails].
  subst params.
  left. exists (Build_txt_prelude gc re_compile _ v1 v2 v3 v4 v5 r5 v6 v7 r7 v8
                  E1 E2 E3 E4 E5 C5 E6 E7 C7 E8).
  apply analyze_txt_run.
Qed.

Section AfterPrelude.
Variables (entries : list string) (config_dir config_string : string).
Variable P : txt_prelude gc re_compile (config_string_to_dict config_string).

Lemma after_prelude_flat (tr : list log_entry) :
  is_hierarchy_type _ _ _ P = HierarchyType.FLAT →
  after_prelude entries config_dir config_string P tr =
  flat_loop norm_join config_string_to_dict Task_init gc config_string
    (norm_join config_dir (os_hierarchy_prefix _ _ _ P)) (os_hierarchy_type _ _ _ P)
    (_match_files_flat_hierarchy file_name_without_extension
       (_find_files norm_join entries
          (norm_join config_dir (is_hierarchy_prefix _ _ _ P))
          (Some (text_relative_path _ _ _ P)) (text_regex _ _ _ P))
       (_find_files norm_join entries
          (norm_join config_dir (is_hierarchy_prefix _ _ _ P))
          (Some (audio_relative_path _ _ _ P)) (audio_regex _ _ _ P)))
    (Job_init config_string) tr.
Proof.
  intros H. unfold txt_after_prelude. cbv zeta. rewrite H. simpl.
  unfold mbind, M_bind.
  match goal with |- (let (_, _) := ?m in _) = _ => destruct m as [[j|e] tr1] end;
    reflexivity.
Qed.

Lemma after_prelude_paged (tr : list log_entry) :
  is_hierarchy_type _ _ _ P = HierarchyType.PAGED →
  after_prelude entries config_dir config_string P tr =
  (dir_pattern ← getitem (config_string_to_dict config_string)
                   (PPN_JOB_IS_TASK_DIRECTORY_NAME_REGEX gc);
   matched_directories ←
     lift (_match_directories re_compile entries
             (norm_join config_dir (is_hierarchy_prefix _ _ _ P)) dir_pattern);
   for_each
     (paged_body norm_join config_string_to_dict Task_init gc entries
        (norm_join config_dir (is_hierarchy_prefix _ _ _ P))
        (text_relative_path _ _ _ P) (text_regex _ _ _ P)
        (audio_relative_path _ _ _ P) (audio_regex _ _ _ P)
        config_string (norm_join config_dir (os_hierarchy_prefix _ _ _ P))
        (os_hierarchy_type _ _ _ P))
     matched_directories (Job_init config_string)) tr.
Proof.
  intros H. unfold txt_after_prelude. cbv zeta. rewrite H. reflexivity.
Qed.

Lemma after_prelude_other (tr : list log_entry) :
  is_hierarchy_type _ _ _ P ≠ HierarchyType.FLAT →
  is_hierarchy_type _ _ _ P ≠ HierarchyType.PAGED →
  after_prelude entries config_dir config_string P tr =
  (Ok (Job_init config_string), tr).
Proof.
  intros H1%String.eqb_neq H2%String.eqb_neq. unfold txt_after_prelude. cbv zeta.
  rewrite H1. unfold mbind, M_bind, mret, M_ret. rewrite H2. reflexivity.
Qed.

End AfterPrelude.

End TxtFacts.

Section TxtBranches.
Variable norm_join : string → string → string.
Variable file_name_without_extension : string → string.
Variable config_string_to_dict : string → gmap string string.
Variable re_compile : string → option Re.regex.
Variable Task_init : string → Task.
Variable gc : GlobalConstants.
Variables (entries : list string) (config_dir config_string : string).
Variable P : txt_prelude gc re_compile (config_string_to_dict config_string).

#[local] Abbreviation after :=
  (txt_after_prelude norm_join file_name_without_extension config_string_to_dict
     re_compile Task_init gc entries config_dir config_string P).
#[local] Abbreviation tasks_root := (norm_join config_dir (is_hierarchy_prefix _ _ _ P)).
#[local] Abbreviation sync_root := (norm_join config_dir (os_hierarchy_prefix _ _ _ P)).
#[local] Abbreviation built_here :=
  (built_for norm_join Task_init gc config_string sync_root
     (os_hierarchy_type _ _ _ P)).
#[local] Abbreviation texts_of :=
  (text_files_in norm_join entries tasks_root
     (text_relative_path _ _ _ P) (text_regex _ _ _ P)).
#[local] Abbreviation audios_of :=
  (audio_files_in norm_join entries tasks_root
     (audio_relative_path _ _ _ P) (audio_regex _ _ _ P)).
#[local] Abbreviation one_each :=
  (exactly_one norm_join entries tasks_root
     (text_relative_path _ _ _ P) (text_regex _ _ _ P)
     (audio_relative_path _ _ _ P) (audio_regex _ _ _ P)).
#[local] Abbreviation unit_of :=
  (task_info_of norm_join entries tasks_root
     (text_relative_path _ _ _ P) (text_regex _ _ _ P)
     (audio_relative_path _ _ _ P) (audio_regex _ _ _ P)).

(** The paged branch, whatever it returns. *)
Lemma after_prelude_paged_cases (tr : list log_entry) :
  is_hierarchy_type _ _ _ P = HierarchyType.PAGED →
  (config_string_to_dict config_string !! PPN_JOB_IS_TASK_DIRECTORY_NAME_REGEX gc
   = None ∧
   after tr = (Raise (KeyError (PPN_JOB_IS_TASK_DIRECTORY_NAME_REGEX gc)), tr)) ∨
  (∃ dir_pattern,
     config_string_to_dict config_string !! PPN_JOB_IS_TASK_DIRECTORY_NAME_REGEX gc
     = Some dir_pattern ∧
     ((re_compile dir_pattern = None ∧
       after tr = (Raise (ReError dir_pattern), tr)) ∨
      (∃ dirs,
         _match_directories re_compile entries tasks_root dir_pattern = Ok dirs ∧
         ((∃ new,
             after tr =
               (Ok {| job_config_string := config_string; tasks := new |},
                tr ++ map (λ d, Log (diagnostic (texts_of d) (audios_of d)) d) dirs) ∧
             Forall2 (λ d task, built_here (unit_of d) task)
               (List.filter one_each dirs) new) ∨
          (no_language gc (config_string_to_dict config_string) ∧
           List.filter one_each dirs ≠ [] ∧
           ∃ tr', after tr = (Raise (KeyError (PPN_JOB_LANGUAGE gc)), tr')))))).
Proof.
  intros Ht. rewrite after_prelude_paged by exact Ht.
  unfold getitem.
  destruct (config_string_to_dict config_string
              !! PPN_JOB_IS_TASK_DIRECTORY_NAME_REGEX gc) as [dp|] eqn:Ed.
  - right. exists dp. split; [reflexivity|].
    destruct (re_compile dp) as [regex|] eqn:Ec.
    + right.
      destruct (match_directories_spec re_compile entries tasks_root dp regex Ec)
        as (dirs & Hrun & _).
      exists dirs. split; [exact Hrun|].
      unfold mbind, M_bind, mret, M_ret, lift. rewrite Hrun.
      destruct (paged_loop_cases norm_join config_string_to_dict Task_init gc
                  entries tasks_root
                  (text_relative_path _ _ _ P) (text_regex _ _ _ P)
                  (audio_relative_path _ _ _ P) (audio_regex _ _ _ P)
                  config_string sync_root (os_hierarchy_type _ _ _ P)
                  dirs (Job_init config_string) tr)
        as [(new & Hloop & Hnew)|(Hn & Hne & tr' & Hloop)].
      * left. exists new. split; [exact Hloop | exact Hnew].
      * right. eauto.
    + left. split; [reflexivity|].
      unfold mbind, M_bind, mret, M_ret, lift, _match_directories. rewrite Ec.
      reflexivity.
  - left. split; [reflexivity|]. reflexivity.
Qed.

(** The result of what follows the prelude: a Job with the configuration
    string, or an exception that the configuration accounts for. *)
Lemma after_prelude_result (tr : list log_entry) :
  match fst (after tr) with
  | Ok job => job_config_string job = config_string
  | Raise e => accounted_for re_compile (config_string_to_dict config_string) e
  end.
Proof.
  destruct (String.eqb_spec (is_hierarchy_type _ _ _ P) HierarchyType.FLAT) as [Hf|Hf].
  - rewrite after_prelude_flat by exact Hf.
    match goal with |- context [flat_loop ?a ?b ?c ?d ?e ?f ?g ?m ?j tr] =>
      destruct (flat_loop_cases a b c d e f g m j tr)
        as [(new & -> & _)|(_ & [_ Hn] & ->)]
    end; simpl; auto.
  - destruct (String.eqb_spec (is_hierarchy_type _ _ _ P) HierarchyType.PAGED)
      as [Hp|Hp].
    + destruct (after_prelude_paged_cases tr Hp)
        as [[Hd ->]|(dp & Hd & [[Hc ->]|(dirs & _ & [(new & -> & _)|([_ Hn] & _ & tr' & ->)])])];
        simpl; auto.
    + rewrite after_prelude_other by assumption. reflexivity.
Qed.

End TxtBranches.

(** X8.  When the configuration has the eight keys read before the test of
    the hierarchy type and both file-name patterns compile, and the
    hierarchy type is the flat one, the simple analysis pairs the two
    filtered lists under the tasks root and builds one Task per pair, in the
    order of the pairs, each with the pair's key as identifier and the
    pair's two paths.  The only way it then fails is a configuration without
    language while there is a pair: the KeyError of the Job-scope language
    key is raised. *)
Theorem analyze_txt_flat
    (norm_join : string → string → string)
    (file_name_without_extension : string → string)
    (config_txt_to_string : option string → string)
    (config_string_to_dict : string → gmap string string)
    (re_compile : string → option Re.regex)
    (Task_init : string → Task) (gc : GlobalConstants)
    (container : Container) (config_string : option string)
    (P : txt_prelude gc re_compile
           (config_string_to_dict
              (txt_config_string config_txt_to_string container config_string)))
    (tr : list log_entry) :
  is_hierarchy_type _ _ _ P = HierarchyType.FLAT →
  let cfg := txt_config_string config_txt_to_string container config_string in
  let config_dir := txt_config_dir container config_string in
  let tasks_root := norm_join config_dir (is_hierarchy_prefix _ _ _ P) in
  let matched :=
    _match_files_flat_hierarchy file_name_without_extension
      (_find_files norm_join (entries container) tasks_root
         (Some (text_relative_path _ _ _ P)) (text_regex _ _ _ P))
      (_find_files norm_join (entries container) tasks_root
         (Some (audio_relative_path _ _ _ P)) (audio_regex _ _ _ P)) in
  let run :=
    _analyze_txt_config norm_join file_name_without_extension config_txt_to_string
      config_string_to_dict re_compile Task_init gc container config_string tr in
  (∃ new,
     run = (Ok {| job_config_string := cfg; tasks := new |}, tr) ∧
     Forall2 (built_for norm_join Task_init gc cfg
                (norm_join config_dir (os_hierarchy_prefix _ _ _ P))
                (os_hierarchy_type _ _ _ P))
       matched new) ∨
  (matched ≠ [] ∧ no_language gc (config_string_to_dict cfg) ∧
   run = (Raise (KeyError (PPN_JOB_LANGUAGE gc)), tr)).
Proof.
  intros Hf. cbv zeta.
  rewrite (analyze_txt_run _ _ _ _ _ _ _ _ _ P), after_prelude_flat by exact Hf.
  match goal with |- context [flat_loop ?a ?b ?c ?d ?e ?f ?g ?m ?j tr] =>
    destruct (flat_loop_cases a b c d e f g m j tr)
      as [(new & Hrun & Hnew)|(Hne & Hn & Hrun)]
  end.
  - left. exists new. split; [exact Hrun | exact Hnew].
  - right. auto.
Qed.

Lemma analyze_txt_flat_witness :
  ∃ new,
    _analyze_txt_config gf.norm_join gf.file_name_without_extension
      Sample.config_txt_to_string Sample.config_string_to_dict Sample.re_compile
      Sample.Task_init gc.values (Sample.container SampleFlat.assets)
      (Some SampleFlat.flat_config) []
    = (Ok {| job_config_string := SampleFlat.flat_config; tasks := new |}, []) ∧
    Forall2 (built_for gf.norm_join Sample.Task_init gc.values
               SampleFlat.flat_config "out" "flat")
      [("ch1", "assets/text/ch1.txt", "assets/audio/ch1.mp3")] new.
Proof.
  unshelve epose (P := Build_txt_prelude gc.values Sample.re_compile
    (Sample.config_string_to_dict SampleFlat.flat_config)
    "assets" "out" "flat" "text" ".*\.txt" Sample.re_txt
    "audio" ".*\.mp3" Sample.re_mp3 "flat" _ _ _ _ _ _ _ _ _ _);
    [vm_compute; reflexivity ..|].
  destruct (analyze_txt_flat gf.norm_join gf.file_name_without_extension
              Sample.config_txt_to_string Sample.config_string_to_dict
              Sample.re_compile Sample.Task_init gc.values
              (Sample.container SampleFlat.assets) (Some SampleFlat.flat_config)
              P [] eq_refl) as [(new & Hrun & Hnew)|(_ & [_ Hn] & _)].
  - exists new. split; [exact Hrun|].
    vm_compute in Hnew. vm_compute. exact Hnew.
  - vm_compute in Hn. discriminate Hn.
Defined.



(** X10.  A hierarchy type that is neither the Flat nor the Paged constant
    is no error: once the eight keys are read the analysis returns the Job
    without any Task and without any directory diagnostic, whether a
    language is configured or not. *)
Theorem analyze_txt_unknown_hierarchy
    (norm_join : string → string → string)
    (file_name_without_extension : string → string)
    (config_txt_to_string : option string → string)
    (config_string_to_dict : string → gmap string string)
    (re_compile : string → option Re.regex)
    (Task_init : string → Task) (gc : GlobalConstants)
    (container : Container) (config_string : option string)
    (P : txt_prelude gc re_compile
           (config_string_to_dict
              (txt_config_string config_txt_to_string container config_string)))
    (tr : list log_entry) :
  is_hierarchy_type _ _ _ P ≠ HierarchyType.FLAT →
  is_hierarchy_type _ _ _ P ≠ HierarchyType.PAGED →
  _analyze_txt_config norm_join file_name_without_extension config_txt_to_string
    config_string_to_dict re_compile Task_init gc container config_string tr
  = (Ok (Job_init (txt_config_string config_txt_to_string container config_string)),
     tr).
Proof.
  intros Hf Hp. rewrite (analyze_txt_run _ _ _ _ _ _ _ _ _ P).
  apply after_prelude_other; assumption.
Qed.

Lemma analyze_txt_unknown_hierarchy_witness :
  _analyze_txt_config gf.norm_join gf.file_name_without_extension
    Sample.config_txt_to_string Sample.config_string_to_dict Sample.re_compile
    Sample.Task_init gc.values (Sample.container SampleFlat.assets)
    (Some SampleFlat.tree_config) []
  = (Ok (Job_init SampleFlat.tree_config), []).
Proof.
  unshelve epose (P := Build_txt_prelude gc.values Sample.re_compile
    (Sample.config_string_to_dict SampleFlat.tree_config)
    "assets" "out" "flat" "text" ".*\.txt" Sample.re_txt
    "audio" ".*\.mp3" Sample.re_mp3 "tree" _ _ _ _ _ _ _ _ _ _);
    [vm_compute; reflexivity ..|].
  apply (analyze_txt_unknown_hierarchy gf.norm_join gf.file_name_without_extension
           Sample.config_txt_to_string Sample.config_string_to_dict
           Sample.re_compile Sample.Task_init gc.values
           (Sample.container SampleFlat.assets) (Some SampleFlat.tree_config) P []);
    discriminate.
Defined.

(** X11.  Whatever the container and the configuration, the simple analysis
    either returns a Job that carries the configuration string it worked
    with, and then the configuration has the eight keys of the prelude and
    its two file name patterns compile, or raises an exception that this configuration accounts for: the
    KeyError of a key that the configuration does not have, or the error of
    a pattern of the configuration that does not compile. *)
Theorem analyze_txt_result
    (norm_join : string → string → string)
    (file_name_without_extension : string → string)
    (config_txt_to_string : option string → string)
    (config_string_to_dict : string → gmap string string)
    (re_compile : string → option Re.regex)
    (Task_init : string → Task) (gc : GlobalConstants)
    (container : Container) (config_string : option string)
    (tr : list log_entry) :
  let cfg := txt_config_string config_txt_to_string container config_string in
  match fst (_analyze_txt_config norm_join file_name_without_extension
               config_txt_to_string config_string_to_dict re_compile Task_init gc
               container config_string tr) with
  | Ok job =>
      job_config_string job = cfg ∧
      inhabited (txt_prelude gc re_compile (config_string_to_dict cfg))
  | Raise e => accounted_for re_compile (config_string_to_dict cfg) e
  end.
Proof.
  cbv zeta.
  destruct (analyze_txt_prelude_cases norm_join file_name_without_extension
              config_txt_to_string config_string_to_dict re_compile Task_init gc
              container config_string tr) as [[P ->]|(e & He & ->)].
  - pose proof (after_prelude_result norm_join file_name_without_extension
                  config_string_to_dict re_compile Task_init gc
                  (entries container) (txt_config_dir container config_string)
                  _ P tr) as H.
    destruct (fst _); [split; [exact H | exact (inhabits P)] | exact H].
  - exact He.
Qed.

(** ** The structured analysis and the choice of the configuration *)

Section XmlFacts.
Variable norm_join : string → string → string.
Variable config_string_to_dict : string → gmap string string.
Variable config_dict_to_string : gmap string string → string.
Variable Task_init : string → Task.
Variable gc : GlobalConstants.
Variables (config_dir sync_root kind : string).

#[local] Abbreviation xml_task_of := (xml_task_of norm_join gc config_dir).

Lemma xml_loop_ok (tps : list (gmap string string)) (job job' : Job)
    (tr tr' : list log_entry) :
  for_each (λ job task_parameters,
    let config_string := config_dict_to_string task_parameters in
    let custom_id := default "" (task_parameters !! PPN_TASK_CUSTOM_ID gc) in
    text ← getitem task_parameters (PPN_TASK_IS_TEXT_FILE_XML gc);
    audio ← getitem task_parameters (PPN_TASK_IS_AUDIO_FILE_XML gc);
    let task_info :=
      (custom_id, norm_join config_dir text, norm_join config_dir audio) in
    task ← _create_task norm_join config_string_to_dict Task_init gc task_info
              config_string sync_root kind;
    mret (add_task job task)) tps job tr = (Ok job', tr') →
  tr' = tr ∧ job_config_string job' = job_config_string job ∧
  ∃ new, tasks job' = tasks job ++ new ∧ Forall2 xml_task_of tps new.
Proof.
  revert job tr. induction tps as [|tp tps IH]; intros job tr H.
  - injection H as <- <-. split; [reflexivity|]. split; [reflexivity|].
    exists []. rewrite app_nil_r. split; [reflexivity|constructor].
  - cbn [for_each] in H. apply bind_ok in H as (acc & tr1 & Hbody & H).
    cbv zeta in Hbody.
    apply bind_ok in Hbody as (text & ? & [Ht ->]%getitem_ok & Hbody).
    apply bind_ok in Hbody as (audio & ? & [Ha ->]%getitem_ok & Hbody).
    apply bind_ok in Hbody as (task & ? & Hc & Hbody).
    injection Hbody as <- <-.
    assert (Hlang : is_Some (language (configuration task))).
    { unfold _create_task in Hc. munfold.
      destruct (_ !! PPN_TASK_LANGUAGE gc);
        [|destruct (_ !! PPN_JOB_LANGUAGE gc); [|discriminate]];
        injection Hc as <- _; simpl; eauto. }
    apply create_task_ok in Hc as (-> & (Hid & _ & Htext & Haudio & _) & _).
    apply IH in H as (-> & Hcfg & new & Hnew & HF).
    split; [reflexivity|]. split; [exact Hcfg|].
    exists (task :: new). split.
    + rewrite Hnew. simpl. rewrite <- app_assoc. reflexivity.
    + constructor; [|exact HF].
      unfold xml_task_of. rewrite Ht, Ha. simpl in *. auto.
Qed.

End XmlFacts.

(** X12.  When the structured analysis returns, its Job carries the
    serialized Job-scope mapping and has exactly one Task per Task mapping,
    in the order of the mappings: the Task's identifier is the mapping's
    custom id, or the empty string when the mapping has none, and its text
    and audio paths are the mapping's paths joined onto the directory of the
    configuration, and it has a language. *)
Theorem analyze_xml_tasks
    (norm_join : string → string → string)
    (config_string_to_dict : string → gmap string string)
    (config_xml_to_dict_job : option string → gmap string string)
    (config_xml_to_dict_tasks : option string → list (gmap string string))
    (config_dict_to_string : gmap string string → string)
    (Task_init : string → Task) (gc : GlobalConstants)
    (container : Container) (config_contents : option string)
    (job : Job) (tr tr' : list log_entry) :
  _analyze_xml_config norm_join config_string_to_dict config_xml_to_dict_job
    config_xml_to_dict_tasks config_dict_to_string Task_init gc container
    config_contents tr = (Ok job, tr') →
  let contents := xml_config_contents container config_contents in
  job_config_string job = config_dict_to_string (config_xml_to_dict_job contents) ∧
  Forall2 (xml_task_of norm_join gc (xml_config_dir container config_contents))
    (config_xml_to_dict_tasks contents) (tasks job).
Proof.
  intros H. cbv zeta. unfold _analyze_xml_config in H.
  assert (Hpair :
    match config_contents with
    | Some config_contents0 => ("", Some config_contents0)
    | None =>
        (posixpath.dirname (entry_config_xml container),
         read_entry container (entry_config_xml container))
    end = (xml_config_dir container config_contents,
           xml_config_contents container config_contents)).
  { destruct config_contents; reflexivity. }
  cbv zeta in H. rewrite Hpair in H.
  apply bind_ok in H as (? & ? & [_ ->]%getitem_ok & H).
  apply bind_ok in H as (? & ? & [_ ->]%getitem_ok & H).
  apply xml_loop_ok in H as (_ & Hcfg & new & Hnew & HF).
  split; [exact Hcfg|].
  simpl in Hnew. rewrite Hnew. exact HF.
Qed.

Lemma analyze_xml_tasks_witness :
  ∃ job,
    fst (_analyze_xml_config gf.norm_join Sample.config_string_to_dict
           Sample.config_xml_to_dict_job Sample.config_xml_to_dict_tasks
           Sample.config_dict_to_string Sample.Task_init gc.values
           Sample.both_configs None []) = Ok job ∧
    Forall2 (xml_task_of gf.norm_join gc.values "OEBPS")
      (Sample.config_xml_to_dict_tasks (Some "<job/>")) (tasks job).
Proof.
  destruct (_analyze_xml_config gf.norm_join Sample.config_string_to_dict
      Sample.config_xml_to_dict_job Sample.config_xml_to_dict_tasks
      Sample.config_dict_to_string Sample.Task_init gc.values Sample.both_configs
      None []) as [[job|e] tr'] eqn:E; [|vm_compute in E; discriminate E].
  destruct (analyze_xml_tasks _ _ _ _ _ _ _ _ _ _ _ _ E) as (_ & HF).
  exists job. split; [reflexivity | exact HF].
Defined.

(** X13.  analyze() returns [None] exactly when the container reports
    neither configuration form, and then the trace of directory diagnostics
    is as it was; a container with a configuration gives a Job or an
    exception, never [None]. *)
Theorem analyze_none_iff_no_config
    (norm_join : string → string → string)
    (file_name_without_extension : string → string)
    (config_txt_to_string : option string → string)
    (config_string_to_dict : string → gmap string string)
    (config_xml_to_dict_job : option string → gmap string string)
    (config_xml_to_dict_tasks : option string → list (gmap string string))
    (config_dict_to_string : gmap string string → string)
    (re_compile : string → option Re.regex)
    (Task_init : string → Task) (gc : GlobalConstants)
    (container : Container) (tr tr' : list log_entry) :
  analyze norm_join file_name_without_extension config_txt_to_string
    config_string_to_dict config_xml_to_dict_job config_xml_to_dict_tasks
    config_dict_to_string re_compile Task_init gc container tr = (Ok None, tr')
  ↔ has_config_xml container = false ∧ has_config_txt container = false ∧ tr' = tr.
Proof.
  unfold analyze.
  destruct (has_config_xml container), (has_config_txt container);
    unfold mbind, M_bind, mret, M_ret.
  1-3: split; [|intros (? & ? & ?); discriminate];
       match goal with |- (let (_, _) := ?m in _) = _ → _ =>
         destruct m as [[j|e] tr1] end; discriminate.
  split; [intros [= <-]; auto | intros (_ & _ & ->); reflexivity].
Qed.

(** X14.  The analysis from a wizard's configuration string reads the
    container through its entry list only: two containers with the same
    entries give the same result, whatever configuration files they hold. *)
Theorem analyze_from_wizard_reads_entries
    (norm_join : string → string → string)
    (file_name_without_extension : string → string)
    (config_txt_to_string : option string → string)
    (config_string_to_dict : string → gmap string string)
    (re_compile : string → option Re.regex)
    (Task_init : string → Task) (gc : GlobalConstants)
    (c c' : Container) (config_string : string) :
  entries c = entries c' →
  analyze_from_wizard norm_join file_name_without_extension config_txt_to_string
    config_string_to_dict re_compile Task_init gc c config_string
  = analyze_from_wizard norm_join file_name_without_extension config_txt_to_string
      config_string_to_dict re_compile Task_init gc c' config_string.
Proof.
  intros He. unfold analyze_from_wizard, _analyze_txt_config. rewrite He. reflexivity.
Qed.

Lemma analyze_from_wizard_reads_entries_witness :
  analyze_from_wizard gf.norm_join gf.file_name_without_extension
    Sample.config_txt_to_string Sample.config_string_to_dict Sample.re_compile
    Sample.Task_init gc.values Sample.xml_only SampleFlat.flat_config
  = analyze_from_wizard gf.norm_join gf.file_name_without_extension
      Sample.config_txt_to_string Sample.config_string_to_dict Sample.re_compile
      Sample.Task_init gc.values (Sample.container ["OEBPS/config.xml"])
      SampleFlat.flat_config.
Proof.
  apply (analyze_from_wizard_reads_entries gf.norm_join
           gf.file_name_without_extension Sample.config_txt_to_string
           Sample.config_string_to_dict Sample.re_compile Sample.Task_init
           gc.values Sample.xml_only (Sample.container ["OEBPS/config.xml"])).
  reflexivity.
Defined.

(** X15.  For a container with the simple configuration only, whose
    configuration file lies at the top level (its directory name is empty),
    analyze() gives what the wizard analysis gives for the configuration
    string of that file. *)
Theorem analyze_txt_as_wizard
    (norm_join : string → string → string)
    (file_name_without_extension : string → string)
    (config_txt_to_string : option string → string)
    (config_string_to_dict : string → gmap string string)
    (config_xml_to_dict_job : option string → gmap string string)
    (config_xml_to_dict_tasks : option string → list (gmap string string))
    (config_dict_to_string : gmap string string → string)
    (re_compile : string → option Re.regex)
    (Task_init : string → Task) (gc : GlobalConstants)
    (container : Container) (tr : list log_entry) :
  has_config_xml container = false → has_config_txt container = true →
  posixpath.dirname (entry_config_txt container) = "" →
  analyze norm_join file_name_without_extension config_txt_to_string
    config_string_to_dict config_xml_to_dict_job config_xml_to_dict_tasks
    config_dict_to_string re_compile Task_init gc container tr
  = (job ← analyze_from_wizard norm_join file_name_without_extension
              config_txt_to_string config_string_to_dict re_compile Task_init gc
              container
              (config_txt_to_string
                 (read_entry container (entry_config_txt container)));
     mret (Some job)) tr.
Proof.
  intros Hx Ht Hd. unfold analyze, analyze_from_wizard, _analyze_txt_config.
  rewrite Hx, Ht, Hd. reflexivity.
Qed.

Lemma analyze_txt_as_wizard_witness :
  analyze gf.norm_join gf.file_name_without_extension Sample.config_txt_to_string
    Sample.config_string_to_dict Sample.config_xml_to_dict_job
    Sample.config_xml_to_dict_tasks Sample.config_dict_to_string
    Sample.re_compile Sample.Task_init gc.values SampleFlat.txt_only []
  = (job ← analyze_from_wizard gf.norm_join gf.file_name_without_extension
              Sample.config_txt_to_string Sample.config_string_to_dict
              Sample.re_compile Sample.Task_init gc.values SampleFlat.txt_only
              SampleFlat.flat_config;
     mret (Some job)) [].
Proof.
  apply (analyze_txt_as_wizard gf.norm_join gf.file_name_without_extension
           Sample.config_txt_to_string Sample.config_string_to_dict
           Sample.config_xml_to_dict_job Sample.config_xml_to_dict_tasks
           Sample.config_dict_to_string Sample.re_compile Sample.Task_init
           gc.values SampleFlat.txt_only []); reflexivity.
Defined.

(** ** Task Builder: a missing language ends the whole analysis *)

Section AbortFacts.
Variable norm_join : string → string → string.
Variable file_name_without_extension : string → string.
Variable config_txt_to_string : option string → string.
Variable config_string_to_dict : string → gmap string string.
Variable config_xml_to_dict_job : option string → gmap string string.
Variable config_xml_to_dict_tasks : option string → list (gmap string string).
Variable config_dict_to_string : gmap string string → string.
Variable re_compile : string → option Re.regex.
Variable Task_init : string → Task.
Variable gc : GlobalConstants.

Lemma bind_run {A B} (m : M A) (f : A → M B) (a : A) (tr tr1 : list log_entry) :
  m tr = (Ok a, tr1) → (m ≫= f) tr = f a tr1.
Proof. intros H. unfold mbind, M_bind. rewrite H. reflexivity. Qed.

Lemma filter_nil_Forall {A} (f : A → bool) (l : list A) :
  Forall (λ x, f x = false) l → List.filter f l = [].
Proof.
  induction 1 as [|x l Hx _ IH]; simpl; [reflexivity|]. rewrite Hx. exact IH.
Qed.

(** Flat hierarchy: a pair and no language, and the analysis raises. *)
Lemma analyze_txt_flat_no_language (container : Container)
    (config_string : option string)
    (P : txt_prelude gc re_compile
           (config_string_to_dict
              (txt_config_string config_txt_to_string container config_string)))
    (tr : list log_entry) :
  is_hierarchy_type _ _ _ P = HierarchyType.FLAT →
  no_language gc
    (config_string_to_dict
       (txt_config_string config_txt_to_string container config_string)) →
  let tasks_root :=
    norm_join (txt_config_dir container config_string)
      (is_hierarchy_prefix _ _ _ P) in
  _match_files_flat_hierarchy file_name_without_extension
    (_find_files norm_join (entries container) tasks_root
       (Some (text_relative_path _ _ _ P)) (text_regex _ _ _ P))
    (_find_files norm_join (entries container) tasks_root
       (Some (audio_relative_path _ _ _ P)) (audio_regex _ _ _ P)) ≠ [] →
  _analyze_txt_config norm_join file_name_without_extension config_txt_to_string
    config_string_to_dict re_compile Task_init gc container config_string tr
  = (Raise (KeyError (PPN_JOB_LANGUAGE gc)), tr).
Proof.
  intros Hf Hn tasks_root Hm. subst tasks_root.
  rewrite (analyze_txt_run _ _ _ _ _ _ _ _ _ P), after_prelude_flat by exact Hf.
  destruct (_match_files_flat_hierarchy _ _ _) as [|info rest]; [congruence|].
  apply flat_loop_no_language, Hn.
Qed.

(** Paged hierarchy: a directory with one file of each kind and no language,
    and the analysis raises. *)
Lemma analyze_txt_paged_no_language (container : Container)
    (config_string : option string)
    (P : txt_prelude gc re_compile
           (config_string_to_dict
              (txt_config_string config_txt_to_string container config_string)))
    (tr : list log_entry) (dir_pattern : string) (dirs : list string) :
  is_hierarchy_type _ _ _ P = HierarchyType.PAGED →
  no_language gc
    (config_string_to_dict
       (txt_config_string config_txt_to_string container config_string)) →
  let tasks_root :=
    norm_join (txt_config_dir container config_string)
      (is_hierarchy_prefix _ _ _ P) in
  config_string_to_dict
    (txt_config_string config_txt_to_string container config_string)
    !! PPN_JOB_IS_TASK_DIRECTORY_NAME_REGEX gc = Some dir_pattern →
  _match_directories re_compile (entries container) tasks_root dir_pattern
  = Ok dirs →
  List.filter
    (exactly_one norm_join (entries container) tasks_root
       (text_relative_path _ _ _ P) (text_regex _ _ _ P)
       (audio_relative_path _ _ _ P) (audio_regex _ _ _ P)) dirs ≠ [] →
  ∃ tr',
    _analyze_txt_config norm_join file_name_without_extension config_txt_to_string
      config_string_to_dict re_compile Task_init gc container config_string tr
    = (Raise (KeyError (PPN_JOB_LANGUAGE gc)), tr').
Proof.
  intros Hp Hn tasks_root Hd Hdirs Hne. subst tasks_root.
  rewrite (analyze_txt_run _ _ _ _ _ _ _ _ _ P), after_prelude_paged by exact Hp.
  unfold getitem. rewrite Hd. unfold mbind, M_bind, mret, M_ret, lift.
  rewrite Hdirs.
  match goal with |- ∃ tr', for_each ?body dirs ?job tr = _ =>
    destruct (for_each body dirs job tr) as [[job'|e] tr1] eqn:E
  end.
  - apply paged_loop_no_language in E as [_ HF]; [|exact Hn].
    apply filter_nil_Forall in HF. congruence.
  - match type of E with for_each ?body dirs ?job tr = _ =>
      destruct (paged_loop_cases norm_join config_string_to_dict Task_init gc
                  (entries container)
                  (norm_join (txt_config_dir container config_string)
                     (is_hierarchy_prefix _ _ _ P))
                  (text_relative_path _ _ _ P) (text_regex _ _ _ P)
                  (audio_relative_path _ _ _ P) (audio_regex _ _ _ P)
                  (txt_config_string config_txt_to_string container config_string)
                  (norm_join (txt_config_dir container config_string)
                     (os_hierarchy_prefix _ _ _ P))
                  (os_hierarchy_type _ _ _ P) dirs job tr)
        as [(new & Hrun & _)|(_ & _ & tr' & Hrun)]
    end.
    + rewrite Hrun in E. discriminate.
    + rewrite Hrun in E. injection E as <- <-. eauto.
Qed.

(** Structured configuration: a Task mapping without a language, the
    mappings having their text and audio paths, and the analysis raises. *)
Lemma xml_loop_no_language (config_dir sync_root kind : string)
    (tps : list (gmap string string)) (job : Job) (tr : list log_entry) :
  Forall (λ tp, is_Some (tp !! PPN_TASK_IS_TEXT_FILE_XML gc)
                ∧ is_Some (tp !! PPN_TASK_IS_AUDIO_FILE_XML gc)) tps →
  Exists (λ tp, no_language gc (config_string_to_dict (config_dict_to_string tp)))
    tps →
  for_each (λ job task_parameters,
    let config_string := config_dict_to_string task_parameters in
    let custom_id := default "" (task_parameters !! PPN_TASK_CUSTOM_ID gc) in
    text ← getitem task_parameters (PPN_TASK_IS_TEXT_FILE_XML gc);
    audio ← getitem task_parameters (PPN_TASK_IS_AUDIO_FILE_XML gc);
    let task_info :=
      (custom_id, norm_join config_dir text, norm_join config_dir audio) in
    task ← _create_task norm_join config_string_to_dict Task_init gc task_info
              config_string sync_root kind;
    mret (add_task job task)) tps job tr
  = (Raise (KeyError (PPN_JOB_LANGUAGE gc)), tr).
Proof.
  intros HF. revert job. induction HF as [|tp tps [[text Ht] [audio Ha]] _ IH];
    intros job HE.
  - inversion HE.
  - destruct (_create_task norm_join config_string_to_dict Task_init gc
                (default "" (tp !! PPN_TASK_CUSTOM_ID gc),
                 norm_join config_dir text, norm_join config_dir audio)
                (config_dict_to_string tp) sync_root kind tr)
      as [[task|e] tr1] eqn:Ec.
    + apply create_task_ok in Ec as Hc. destruct Hc as (-> & _ & Hl).
      erewrite for_each_cons_ok.
      2:{ cbv zeta. unfold getitem. rewrite Ht, Ha. unfold mbind, M_bind, mret, M_ret.
          rewrite Ec. reflexivity. }
      apply IH. inversion HE as [? ? [H1 H2]|]; subst; [|assumption].
      destruct Hl as [[l Hl]|[l Hl]]; congruence.
    + apply create_task_raise in Ec as Hc. destruct Hc as (-> & -> & _).
      apply for_each_cons_raise.
      cbv zeta. unfold getitem. rewrite Ht, Ha. unfold mbind, M_bind, mret, M_ret.
      rewrite Ec. reflexivity.
Qed.

Lemma analyze_xml_no_language_raises (container : Container)
    (config_contents : option string) (tr : list log_entry) :
  let contents := xml_config_contents container config_contents in
  is_Some (config_xml_to_dict_job contents !! PPN_JOB_OS_HIERARCHY_PREFIX gc) →
  is_Some (config_xml_to_dict_job contents !! PPN_JOB_OS_HIERARCHY_TYPE gc) →
  Forall (λ tp, is_Some (tp !! PPN_TASK_IS_TEXT_FILE_XML gc)
                ∧ is_Some (tp !! PPN_TASK_IS_AUDIO_FILE_XML gc))
    (config_xml_to_dict_tasks contents) →
  Exists (λ tp, no_language gc (config_string_to_dict (config_dict_to_string tp)))
    (config_xml_to_dict_tasks contents) →
  _analyze_xml_config norm_join config_string_to_dict config_xml_to_dict_job
    config_xml_to_dict_tasks config_dict_to_string Task_init gc container
    config_contents tr
  = (Raise (KeyError (PPN_JOB_LANGUAGE gc)), tr).
Proof.
  intros contents [p Hp] [k Hk] HF HE. unfold _analyze_xml_config.
  assert (Hpair :
    match config_contents with
    | Some config_contents0 => ("", Some config_contents0)
    | None =>
        (posixpath.dirname (entry_config_xml container),
         read_entry container (entry_config_xml container))
    end = (xml_config_dir container config_contents, contents)).
  { subst contents. destruct config_contents; reflexivity. }
  subst contents. cbv zeta. rewrite Hpair. cbv beta iota.
  rewrite (bind_run _ _ p tr tr) by (unfold getitem; rewrite Hp; reflexivity).
  rewrite (bind_run _ _ k tr tr) by (unfold getitem; rewrite Hk; reflexivity).
  apply xml_loop_no_language; assumption.
Qed.

End AbortFacts.

(** C5.  _create_task takes the language from the Task-scope key when the
    configuration has it, else from the Job-scope key.  When it has neither,
    _create_task raises the KeyError of the Job-scope key, nothing catches
    it and the whole call ends with it.  The flat loop raises it at its
    first unit, so the simple analysis of a flat container raises it as soon
    as there is a pair; the paged loop raises it at a directory with one
    file of each kind, so the simple analysis of a paged container raises it
    as soon as there is such a directory; the structured analysis raises it
    when a Task mapping has no language; analyze() and analyze_from_wizard()
    hand on what the analysis they call raises.  Hence no Task is left out
    in silence: a simple analysis that returns had no Task to build, and so
    had a structured one none of whose mappings has a language. *)
Theorem create_task_language_resolution
    (norm_join : string → string → string)
    (file_name_without_extension : string → string)
    (config_txt_to_string : option string → string)
    (config_string_to_dict : string → gmap string string)
    (config_xml_to_dict_job : option string → gmap string string)
    (config_xml_to_dict_tasks : option string → list (gmap string string))
    (config_dict_to_string : gmap string string → string)
    (re_compile : string → option Re.regex)
    (Task_init : string → Task) (gc : GlobalConstants)
    (task_info : string * string * string)
    (config_string root kind : string) (tr : list log_entry) :
  let create info :=
    _create_task norm_join config_string_to_dict Task_init gc info
      config_string root kind in
  let analyze_txt :=
    _analyze_txt_config norm_join file_name_without_extension
      config_txt_to_string config_string_to_dict re_compile Task_init gc in
  let analyze_xml :=
    _analyze_xml_config norm_join config_string_to_dict config_xml_to_dict_job
      config_xml_to_dict_tasks config_dict_to_string Task_init gc in
  match config_string_to_dict config_string !! PPN_TASK_LANGUAGE gc,
        config_string_to_dict config_string !! PPN_JOB_LANGUAGE gc with
  | Some l, _ | None, Some l =>
      ∃ task, create task_info tr = (Ok task, tr) ∧
              language (configuration task) = Some l
  | None, None =>
      create task_info tr = (Raise (KeyError (PPN_JOB_LANGUAGE gc)), tr) ∧
      (∀ rest job,
         flat_loop norm_join config_string_to_dict Task_init gc config_string
           root kind (task_info :: rest) job tr
         = (Raise (KeyError (PPN_JOB_LANGUAGE gc)), tr)) ∧
      (∀ entries tasks_root trel tre arel are job d,
         exactly_one norm_join entries tasks_root trel tre arel are d = true →
         fst (paged_body norm_join config_string_to_dict Task_init gc entries
                tasks_root trel tre arel are config_string root kind job d tr)
         = Raise (KeyError (PPN_JOB_LANGUAGE gc))) ∧
      (∀ container cs tr0 tr1 job,
         txt_config_string config_txt_to_string container cs = config_string →
         analyze_txt container cs tr0 = (Ok job, tr1) →
         tasks job = []) ∧
      (∀ container cs
         (P : txt_prelude gc re_compile
                (config_string_to_dict
                   (txt_config_string config_txt_to_string container cs)))
         tr0,
         txt_config_string config_txt_to_string container cs = config_string →
         let tasks_root :=
           norm_join (txt_config_dir container cs) (is_hierarchy_prefix _ _ _ P) in
         (is_hierarchy_type _ _ _ P = HierarchyType.FLAT →
          _match_files_flat_hierarchy file_name_without_extension
            (_find_files norm_join (entries container) tasks_root
               (Some (text_relative_path _ _ _ P)) (text_regex _ _ _ P))
            (_find_files norm_join (entries container) tasks_root
               (Some (audio_relative_path _ _ _ P)) (audio_regex _ _ _ P)) ≠ [] →
          analyze_txt container cs tr0
          = (Raise (KeyError (PPN_JOB_LANGUAGE gc)), tr0)) ∧
         (∀ dir_pattern dirs,
            is_hierarchy_type _ _ _ P = HierarchyType.PAGED →
            config_string_to_dict config_string
              !! PPN_JOB_IS_TASK_DIRECTORY_NAME_REGEX gc = Some dir_pattern →
            _match_directories re_compile (entries container) tasks_root
              dir_pattern = Ok dirs →
            List.filter
              (exactly_one norm_join (entries container) tasks_root
                 (text_relative_path _ _ _ P) (text_regex _ _ _ P)
                 (audio_relative_path _ _ _ P) (audio_regex _ _ _ P)) dirs ≠ [] →
            ∃ tr1, analyze_txt container cs tr0
                   = (Raise (KeyError (PPN_JOB_LANGUAGE gc)), tr1)))
  end ∧
  (∀ container cc tr0 tr1 job,
     (∀ tp, In tp (config_xml_to_dict_tasks (xml_config_contents container cc)) →
        no_language gc (config_string_to_dict (config_dict_to_string tp))) →
     analyze_xml container cc tr0 = (Ok job, tr1) →
     config_xml_to_dict_tasks (xml_config_contents container cc) = [] ∧
     tasks job = []) ∧
  (∀ container cc tr0,
     let contents := xml_config_contents container cc in
     is_Some (config_xml_to_dict_job contents !! PPN_JOB_OS_HIERARCHY_PREFIX gc) →
     is_Some (config_xml_to_dict_job contents !! PPN_JOB_OS_HIERARCHY_TYPE gc) →
     Forall (λ tp, is_Some (tp !! PPN_TASK_IS_TEXT_FILE_XML gc)
                   ∧ is_Some (tp !! PPN_TASK_IS_AUDIO_FILE_XML gc))
       (config_xml_to_dict_tasks contents) →
     Exists (λ tp, no_language gc (config_string_to_dict (config_dict_to_string tp)))
       (config_xml_to_dict_tasks contents) →
     analyze_xml container cc tr0
     = (Raise (KeyError (PPN_JOB_LANGUAGE gc)), tr0)) ∧
  (∀ container cs tr0,
     analyze_from_wizard norm_join file_name_without_extension
       config_txt_to_string config_string_to_dict re_compile Task_init gc
       container cs tr0
     = analyze_txt container (Some cs) tr0) ∧
  (∀ container e tr0 tr1,
     has_config_xml container || has_config_txt container = true →
     (if has_config_xml container then analyze_xml container None tr0
      else analyze_txt container None tr0) = (Raise e, tr1) →
     analyze norm_join file_name_without_extension config_txt_to_string
       config_string_to_dict config_xml_to_dict_job config_xml_to_dict_tasks
       config_dict_to_string re_compile Task_init gc container tr0
     = (Raise e, tr1)).
Proof.
  cbv zeta. split; [|split; [|split; [|split]]].
  - destruct (config_string_to_dict config_string !! PPN_TASK_LANGUAGE gc)
      as [l|] eqn:Et.
    + destruct (create_task_from_task norm_join config_string_to_dict Task_init
                  gc task_info config_string root kind l Et) as (t & Hl & Ht).
      exists t. auto.
    + destruct (config_string_to_dict config_string !! PPN_JOB_LANGUAGE gc)
        as [l|] eqn:Ej.
      * destruct (create_task_from_job norm_join config_string_to_dict Task_init
                    gc task_info config_string root kind l Et Ej) as (t & Hl & Ht).
        exists t. auto.
      * assert (Hn : no_language gc (config_string_to_dict config_string))
          by (split; assumption).
        split; [apply create_task_no_language, Hn|].
        split; [intros rest job; apply flat_loop_no_language, Hn|].
        split; [|split].
        -- intros entries tasks_root trel tre arel are job d Hd.
           rewrite (paged_body_no_language norm_join config_string_to_dict
                      Task_init gc entries tasks_root trel tre arel are
                      config_string root kind job d tr Hn Hd).
           reflexivity.
        -- intros container cs tr0 tr1 job Hcs Hrun.
           eapply analyze_txt_no_language; [|exact Hrun]. rewrite Hcs. exact Hn.
        -- intros container cs P tr0 Hcs. rewrite <- Hcs in Hn. split.
           ++ intros Hf Hm.
              apply (analyze_txt_flat_no_language norm_join
                       file_name_without_extension config_txt_to_string
                       config_string_to_dict re_compile Task_init gc container
                       cs P tr0 Hf Hn Hm).
           ++ intros dir_pattern dirs Hp Hd Hdirs Hne. rewrite <- Hcs in Hd.
              apply (analyze_txt_paged_no_language norm_join
                       file_name_without_extension config_txt_to_string
                       config_string_to_dict re_compile Task_init gc container
                       cs P tr0 dir_pattern dirs Hp Hn Hd Hdirs Hne).
  - intros container cc tr0 tr1 job Hn Hrun.
    eapply analyze_xml_no_language; eassumption.
  - intros container cc tr0 Hp Hk HF HE.
    apply analyze_xml_no_language_raises; assumption.
  - intros container cs tr0. reflexivity.
  - intros container e tr0 tr1 Hc Hrun. unfold analyze.
    destruct (has_config_xml container).
    + unfold mbind, M_bind. rewrite Hrun. reflexivity.
    + simpl in Hc. rewrite Hc. unfold mbind, M_bind. rewrite Hrun. reflexivity.
Qed.

Lemma create_task_language_resolution_witness :
  _create_task gf.norm_join Sample.config_string_to_dict Sample.Task_init gc.values
    ("1", "pages/1/page.txt", "pages/1/page.mp3") Sample.paged_config "out" "paged" []
  = (Raise (KeyError "job_language"), []) ∧
  ∃ tr1,
    _analyze_txt_config gf.norm_join gf.file_name_without_extension
      Sample.config_txt_to_string Sample.config_string_to_dict Sample.re_compile
      Sample.Task_init gc.values (Sample.container Sample.pages)
      (Some Sample.paged_config) []
    = (Raise (KeyError "job_language"), tr1).
Proof.
  pose proof (create_task_language_resolution gf.norm_join
                gf.file_name_without_extension Sample.config_txt_to_string
                Sample.config_string_to_dict Sample.config_xml_to_dict_job
                Sample.config_xml_to_dict_tasks Sample.config_dict_to_string
                Sample.re_compile Sample.Task_init gc.values
                ("1", "pages/1/page.txt", "pages/1/page.mp3")
                Sample.paged_config "out" "paged" []) as [H _].
  assert (Et : Sample.config_string_to_dict Sample.paged_config
                 !! PPN_TASK_LANGUAGE gc.values = None) by (vm_compute; reflexivity).
  assert (Ej : Sample.config_string_to_dict Sample.paged_config
                 !! PPN_JOB_LANGUAGE gc.values = None) by (vm_compute; reflexivity).
  rewrite Et, Ej in H. destruct H as (Hcreate & _ & _ & _ & Hrun).
  split; [exact Hcreate|].
  unshelve epose (P := Build_txt_prelude gc.values Sample.re_compile
    (Sample.config_string_to_dict Sample.paged_config)
    "pages" "out" "paged" "." ".*\.txt" Sample.re_txt
    "." ".*\.mp3" Sample.re_mp3 "paged" _ _ _ _ _ _ _ _ _ _);
    [vm_compute; reflexivity ..|].
  destruct (Hrun (Sample.container Sample.pages) (Some Sample.paged_config) P []
              eq_refl) as [_ Hpaged].
  apply (Hpaged "[0-9]+" ["1"; "2"; "3"; "4"; "5"]).
  - reflexivity.
  - vm_compute. reflexivity.
  - vm_compute. reflexivity.
  - vm_compute. discriminate.
Defined.
